(** * A shallow embedding of the GLSL language-server session layer

    The development follows [src/main.cpp]: the response encoder
    [make_response], the stage lookup [find_language], the diagnostic
    translator [get_diagnostics], the dispatcher [handle_message] and the
    transport callback [ev_handler].

    Conventions.
    - A [std::string] is a [string]: a sequence of bytes, so [String.length]
      is [std::string::size].
    - C++ integers are [Z] with the conversions written out ([to_int],
      [wrap_size_t]).
    - A C++ function that can throw, or whose behaviour can be undefined,
      returns a [result]; code that also touches [AppState] lives in the
      monad [M].
    - The shader compiler and the JSON serializer are libraries outside the
      repository: they are fields of the class [Collaborators]. *)

From Stdlib Require Import String Ascii List ZArith Lia Bool Arith.
From Stdlib Require Import DecimalString DecimalNat Decimal.
Import ListNotations.

Local Open Scope string_scope.
Local Open Scope Z_scope.

(** ** Characters and strings *)

Definition CR : ascii := ascii_of_nat 13.
Definition LF : ascii := ascii_of_nat 10.
Definition TAB : ascii := ascii_of_nat 9.
Definition CRLF : string := String CR (String LF "").
Definition NL : string := String LF "".

(** [std::string::npos], the largest [size_t]. *)
Definition npos : Z := 2 ^ 64 - 1.

(** Arithmetic on [size_t] is modulo [2^64]. *)
Definition wrap_size_t (z : Z) : Z := z mod 2 ^ 64.

(** Conversion of an integer to [int]: the value modulo [2^32], read as a
    two's complement number. *)
Definition to_int (z : Z) : Z := (z + 2 ^ 31) mod 2 ^ 32 - 2 ^ 31.

(** [s.find(needle)]: offset of the first occurrence, [npos] when there is
    none. *)
Definition find (s needle : string) : Z :=
  match String.index 0 needle s with
  | Some n => Z.of_nat n
  | None => npos
  end.

(** [s.length()] as a [size_t]. *)
Definition size (s : string) : Z := Z.of_nat (String.length s).

(** [std::to_string] on an unsigned value. *)
Definition to_string (n : nat) : string :=
  NilZero.string_of_uint (Nat.to_uint n).

Definition is_digit (c : ascii) : bool :=
  let n := nat_of_ascii c in (48 <=? n)%nat && (n <=? 57)%nat.

Definition digit_value (c : ascii) : Z := Z.of_nat (nat_of_ascii c) - 48.

(** [isspace] in the C locale. *)
Definition is_space (c : ascii) : bool :=
  let n := nat_of_ascii c in (n =? 32)%nat || ((9 <=? n)%nat && (n <=? 13)%nat).

(** ** Exceptions and results *)

Inductive exn : Type :=
| invalid_argument (what : string)
| out_of_range (what : string)
| type_error (id : Z).

(** The outcome of running a piece of C++: a value, an exception in flight,
    or undefined behaviour (an unchecked access outside a container). *)
Inductive result (A : Type) : Type :=
| Ok (a : A)
| Throw (e : exn)
| Undefined.

Arguments Ok {A} a.
Arguments Throw {A} e.
Arguments Undefined {A}.

Definition rbind {A B} (r : result A) (f : A -> result B) : result B :=
  match r with
  | Ok a => f a
  | Throw e => Throw e
  | Undefined => Undefined
  end.

Declare Scope result_scope.
Delimit Scope result_scope with result.
Notation "'let?' x ':=' r 'in' k" := (rbind r (fun x => k))
  (at level 10, x pattern, r at level 100, k at level 200) : result_scope.

(** [std::stoi]: skip white space, read an optional sign and the decimal
    digits that follow; [invalid_argument] when there is no digit,
    [out_of_range] when the value does not fit an [int]. *)
Fixpoint skip_spaces (s : string) : string :=
  match s with
  | String c s' => if is_space c then skip_spaces s' else s
  | EmptyString => s
  end.

Fixpoint read_digits (s : string) (acc : option Z) : option Z :=
  match s with
  | String c s' =>
      if is_digit c
      then read_digits s' (Some (10 * match acc with Some a => a | None => 0 end
                                 + digit_value c))
      else acc
  | EmptyString => acc
  end.

Definition stoi (s : string) : result Z :=
  let s := skip_spaces s in
  let '(neg, s) :=
    match s with
    | String "-" s' => (true, s')
    | String "+" s' => (false, s')
    | _ => (false, s)
    end in
  match read_digits s None with
  | None => Throw (invalid_argument "stoi")
  | Some v =>
      let v := if neg then - v else v in
      if (- 2 ^ 31 <=? v) && (v <=? 2 ^ 31 - 1) then Ok v
      else Throw (out_of_range "stoi")
  end.

(** ** JSON values ([nlohmann::json])

    An object is a [std::map]: its keys are unique and kept in increasing
    order, which is the order in which the serializer prints them.
    Floating-point numbers do not occur in the messages built here and are
    left out. *)

#[local] Set Warnings "-register-all".

Inductive json : Type :=
| JNull
| JBool (b : bool)
| JInt (z : Z)
| JString (s : string)
| JArray (l : list json)
| JObject (m : list (string * json)).

Module Json.

Fixpoint obj_find (key : string) (m : list (string * json)) : option json :=
  match m with
  | [] => None
  | (k, v) :: m' => if String.eqb key k then Some v else obj_find key m'
  end.

(** [m[key] = v] on the underlying map. *)
Fixpoint obj_set (key : string) (v : json) (m : list (string * json))
  : list (string * json) :=
  match m with
  | [] => [(key, v)]
  | (k, w) :: m' =>
      match String.compare key k with
      | Lt => (key, v) :: m
      | Eq => (key, v) :: m'
      | Gt => (k, w) :: obj_set key v m'
      end
  end.

(** [m.emplace(key, v)]: an existing entry is kept. *)
Definition obj_emplace (key : string) (v : json) (m : list (string * json))
  : list (string * json) :=
  match obj_find key m with
  | Some _ => m
  | None => obj_set key v m
  end.

(** An initializer list of key/value pairs, as in
    [json error{ {"code", c}, {"message", m} }]. *)
Definition object (l : list (string * json)) : json :=
  JObject (fold_left (fun m kv => obj_emplace (fst kv) (snd kv) m) l []).

(** The non-const [j[key]]: a null becomes an object, a missing key is
    inserted with a null value, anything that is not an object throws.
    Returns the element and the container as it is afterwards. *)
Definition subscript (j : json) (key : string) : result (json * json) :=
  match j with
  | JNull => Ok (JNull, JObject [(key, JNull)])
  | JObject m =>
      match obj_find key m with
      | Some v => Ok (v, j)
      | None => Ok (JNull, JObject (obj_set key JNull m))
      end
  | _ => Throw (type_error 305)
  end.

(** The value of [j[key]] where the container is not looked at again. *)
Definition at_key (j : json) (key : string) : result json :=
  (let? p := subscript j key in Ok (fst p))%result.

(** The non-const [j[idx]]: a null becomes an array and an index past the
    end fills the array with nulls, so the element read is null. *)
Definition at_index (j : json) (idx : nat) : result json :=
  match j with
  | JNull => Ok JNull
  | JArray l => Ok (nth idx l JNull)
  | _ => Throw (type_error 305)
  end.

(** [j[key] = v]. *)
Definition set_key (j : json) (key : string) (v : json) : result json :=
  match j with
  | JNull => Ok (JObject [(key, v)])
  | JObject m => Ok (JObject (obj_set key v m))
  | _ => Throw (type_error 305)
  end.

(** [j == "text"]. *)
Definition eq_string (j : json) (s : string) : bool :=
  match j with
  | JString t => String.eqb t s
  | _ => false
  end.

(** [j.get<std::string>()], also the implicit conversion to
    [std::string]. *)
Definition get_string (j : json) : result string :=
  match j with
  | JString s => Ok s
  | _ => Throw (type_error 302)
  end.

Definition empty (j : json) : bool :=
  match j with
  | JNull => true
  | JArray [] => true
  | JObject [] => true
  | _ => false
  end.

Definition push_back (j v : json) : result json :=
  match j with
  | JNull => Ok (JArray [v])
  | JArray l => Ok (JArray (l ++ [v])%list)
  | _ => Throw (type_error 308)
  end.

Definition count (j : json) (key : string) : Z :=
  match j with
  | JObject m => match obj_find key m with Some _ => 1 | None => 0 end
  | _ => 0
  end.

(** The const lookup used to state properties of a finished payload. *)
Definition lookup (j : json) (key : string) : option json :=
  match j with
  | JObject m => obj_find key m
  | _ => None
  end.

Definition keys (j : json) : list string :=
  match j with
  | JObject m => map fst m
  | _ => []
  end.

End Json.

(** ** Regular expressions ([std::regex], ECMAScript grammar)

    The two patterns of the program use literals, [.], [\d], the greedy
    star of a single-character matcher, and groups that are not nested.
    [regex_search] looks for the leftmost match; within it a star takes as
    many characters as it can and gives them back one at a time. *)

Module Regex.

Inductive atom : Type :=
| Lit (c : ascii)
| Any
| Digit.

Inductive regex : Type :=
| One (a : atom)
| Star (a : atom)
| Group (r : regex)
| Seq (r1 r2 : regex).

(** [.] matches every character but the line terminators. *)
Definition accepts (a : atom) (c : ascii) : bool :=
  match a with
  | Lit d => Ascii.eqb c d
  | Any => negb (Ascii.eqb c LF) && negb (Ascii.eqb c CR)
  | Digit => is_digit c
  end.

Fixpoint lit (s : string) (k : regex) : regex :=
  match s with
  | String c s' => Seq (One (Lit c)) (lit s' k)
  | EmptyString => k
  end.

Section Matcher.
Context {R : Type}.

Fixpoint star (a : atom) (s : string) (k : string -> option R)
  : option R :=
  match s with
  | String c s' =>
      if accepts a c
      then match star a s' k with
           | Some r => Some r
           | None => k s
           end
      else k s
  | EmptyString => k s
  end.

(** The text consumed between [s] and its suffix [rest]. *)
Definition consumed (s rest : string) : string :=
  substring 0 (String.length s - String.length rest) s.

(** Groups are recorded when they close, which is their order in the
    pattern as no group contains another. *)
Fixpoint run (r : regex) (s : string) (caps : list string)
  (k : string -> list string -> option R) : option R :=
  match r with
  | One a =>
      match s with
      | String c s' => if accepts a c then k s' caps else None
      | EmptyString => None
      end
  | Star a => star a s (fun rest => k rest caps)
  | Group r' =>
      run r' s caps (fun rest caps' => k rest (caps' ++ [consumed s rest])%list)
  | Seq r1 r2 =>
      run r1 s caps (fun rest caps' => run r2 rest caps' k)
  end.
End Matcher.

Definition match_here (r : regex) (s : string) : option (list string) :=
  run r s [] (fun rest caps => Some (consumed s rest :: caps)).

(** [std::regex_search(s, m, re)] followed by reading [m]: the whole match
    and the groups, or no sub-match at all when nothing matches (so that
    [m.size()] is [0]). *)
Fixpoint regex_search (s : string) (r : regex) : list string :=
  match match_here r s with
  | Some m => m
  | None =>
      match s with
      | String _ s' => regex_search s' r
      | EmptyString => []
      end
  end.

End Regex.

(** ** String helpers of [utils.hpp] *)

Fixpoint mem_char (c : ascii) (set : string) : bool :=
  match set with
  | String d set' => Ascii.eqb c d || mem_char c set'
  | EmptyString => false
  end.

Fixpoint split_from (sep : string) (skip : nat) (cur s : string)
  : list string :=
  match s with
  | EmptyString => [cur]
  | String c s' =>
      match skip with
      | S n => split_from sep n cur s'
      | O =>
          if negb (String.eqb sep "") && prefix sep s
          then cur :: split_from sep (String.length sep - 1) "" s'
          else split_from sep 0 (cur ++ String c "") s'
      end
  end.

(** Modelled from the spec: [split_string] of [utils.hpp], which is not part
    of the sources.  "Split the log into lines; split the source into
    lines": the text is cut at every occurrence of the separator, and the
    pieces are kept in order. *)
Definition split_string (s sep : string) : list string :=
  split_from sep 0 "" s.

Fixpoint drop_leading (set s : string) : string :=
  match s with
  | String c s' => if mem_char c set then drop_leading set s' else s
  | EmptyString => s
  end.

Fixpoint drop_trailing (set s : string) : string :=
  match s with
  | String c s' =>
      let r := drop_trailing set s' in
      if mem_char c set && String.eqb r "" then "" else String c r
  | EmptyString => s
  end.

(** Modelled from the spec: [trim] of [utils.hpp], which is not part of the
    sources.  "Trim leading/trailing spaces from MESSAGE": the characters of
    [set] are removed at both ends. *)
Definition trim (s set : string) : string :=
  drop_trailing set (drop_leading set s).

(** ** The document workspace *)

(** Modelled from the spec: the [Workspace] class of [workspace.hpp], which
    is not part of the sources.  It "owns the Document collection and a
    single boolean initialized"; the collection maps a URI to the current
    text. *)
Record Workspace : Type := mkWorkspace {
  ws_initialized : bool;
  ws_documents : list (string * string)
}.

Module WorkspaceOps.

Definition set_initialized (b : bool) (w : Workspace) : Workspace :=
  mkWorkspace b (ws_documents w).

Definition is_initialized (w : Workspace) : bool := ws_initialized w.

Fixpoint find_document (uri : string) (ds : list (string * string))
  : option string :=
  match ds with
  | [] => None
  | (u, t) :: ds' => if String.eqb uri u then Some t else find_document uri ds'
  end.

Fixpoint replace_document (uri text : string) (ds : list (string * string))
  : list (string * string) :=
  match ds with
  | [] => []
  | (u, t) :: ds' =>
      if String.eqb uri u then (u, text) :: ds'
      else (u, t) :: replace_document uri text ds'
  end.

(** "inserts or overwrites the Document for uri with text" *)
Definition add_document (uri text : string) (w : Workspace) : Workspace :=
  match find_document uri (ws_documents w) with
  | Some _ =>
      mkWorkspace (ws_initialized w) (replace_document uri text (ws_documents w))
  | None =>
      mkWorkspace (ws_initialized w) (ws_documents w ++ [(uri, text)])%list
  end.

(** "replaces the full text for an existing URI.  Fails silently [...] if
    the URI was never opened" *)
Definition change_document (uri text : string) (w : Workspace) : Workspace :=
  mkWorkspace (ws_initialized w) (replace_document uri text (ws_documents w)).

(** [documents()[uri]]: the accessor hands out a snapshot, and indexing a
    [std::map] with a missing key reads a fresh empty string. *)
Definition document_text (uri : string) (w : Workspace) : string :=
  match find_document uri (ws_documents w) with
  | Some t => t
  | None => ""
  end.

End WorkspaceOps.

(** ** Program state *)

(** [struct AppState]; the log file is the sequence of texts written to
    [logfile_stream]. *)
Record AppState : Type := mkAppState {
  workspace : Workspace;
  verbose : bool;
  use_logfile : bool;
  logfile_stream : list string
}.

(** The shader stages of glslang's [EShLanguage] that [find_language]
    returns. *)
Inductive EShLanguage : Type :=
| EShLangVertex
| EShLangTessControl
| EShLangTessEvaluation
| EShLangGeometry
| EShLangFragment
| EShLangCompute.

(** What [mg_send_head] followed by [mg_printf] puts on the connection. *)
Record HttpReply : Type := mkHttpReply {
  reply_status : Z;
  reply_length : Z;
  reply_extra_headers : string;
  reply_content : string
}.

(** Everything a call can change: the application state, the calls made to
    the shader compiler so far, and the replies written to the
    connection. *)
Record World : Type := mkWorld {
  appstate : AppState;
  shader_parses : list (EShLanguage * string);
  sent : list HttpReply
}.

(** The libraries outside the repository.
    - [info_log lang source] is the text of [shader.getInfoLog()] after
      [shader.parse] on [source] for the stage [lang].
    - [dump indent j] is [j.dump(indent)]; [dump (-1)] is the compact form
      that [operator<<] prints. *)
Class Collaborators : Type := {
  info_log : EShLanguage -> string -> string;
  dump : Z -> json -> string
}.

(** ** The monad of stateful, throwing code *)

Definition M (A : Type) : Type := World -> result A * World.

Definition ret {A} (a : A) : M A := fun w => (Ok a, w).

Definition bind {A B} (c : M A) (f : A -> M B) : M B :=
  fun w =>
    match c w with
    | (Ok a, w') => f a w'
    | (Throw e, w') => (Throw e, w')
    | (Undefined, w') => (Undefined, w')
    end.

Definition lift {A} (r : result A) : M A := fun w => (r, w).

Declare Scope monad_scope.
Delimit Scope monad_scope with monad.
Notation "x <- c ;; k" := (bind c (fun x => k))
  (at level 61, c at next level, right associativity) : monad_scope.
Notation "' p <- c ;; k" := (bind c (fun x => match x with p => k end))
  (at level 61, p pattern, c at next level, right associativity) : monad_scope.
Notation "c ;; k" := (bind c (fun _ => k))
  (at level 61, right associativity) : monad_scope.

Definition get_appstate : M AppState := fun w => (Ok (appstate w), w).

Definition update_workspace (f : Workspace -> Workspace) : M unit :=
  fun w =>
    let a := appstate w in
    (Ok tt,
     mkWorld (mkAppState (f (workspace a)) (verbose a) (use_logfile a)
                (logfile_stream a))
       (shader_parses w) (sent w)).

(** [fmt::print(appstate.logfile_stream, ...)] with the formatted text. *)
Definition print_log (text : string) : M unit :=
  fun w =>
    let a := appstate w in
    (Ok tt,
     mkWorld (mkAppState (workspace a) (verbose a) (use_logfile a)
                (logfile_stream a ++ [text])%list)
       (shader_parses w) (sent w)).

Definition when (b : bool) (c : M unit) : M unit :=
  if b then c else ret tt.

(** [shader.parse(...)] followed by [shader.getInfoLog()]. *)
Definition shader_parse `{Collaborators} (lang : EShLanguage) (source : string)
  : M string :=
  fun w =>
    (Ok (info_log lang source),
     mkWorld (appstate w) (shader_parses w ++ [(lang, source)])%list (sent w)).

Definition send_reply (r : HttpReply) : M unit :=
  fun w => (Ok tt, mkWorld (appstate w) (shader_parses w) (sent w ++ [r])%list).

(** A range-based [for] that updates an accumulator. *)
Fixpoint for_each {A B} (l : list A) (body : B -> A -> M B) (acc : B) : M B :=
  match l with
  | [] => ret acc
  | x :: l' => (acc' <- body acc x ;; for_each l' body acc')%monad
  end.

(** ** [make_response] *)

Definition content_type_header : string :=
  "Content-Type: application/vscode-jsonrpc;charset=utf-8".

Definition make_response `{Collaborators} (response : json) : result string :=
  (let? content := Json.set_key response "jsonrpc" (JString "2.0") in
   let header :=
     "Content-Length: " ++ to_string (String.length (dump 4 content)) ++ CRLF in
   let header := header ++ content_type_header ++ CRLF in
   let header := header ++ CRLF in
   Ok (header ++ dump 4 content))%result.

(** ** [find_language] *)

(** The suffix of [s] that starts at the last occurrence of [c]. *)
Fixpoint last_from (c : ascii) (s : string) : option string :=
  match s with
  | EmptyString => None
  | String a s' =>
      match last_from c s' with
      | Some r => Some r
      | None => if Ascii.eqb a c then Some s else None
      end
  end.

Definition filename (name : string) : string :=
  match last_from "/" name with
  | Some (String _ f) => f
  | _ => name
  end.

(** [fs::path(name).extension()]: the part of the file name from its last
    dot on; empty for [.] and [..] and for a name without a dot. *)
Definition extension (name : string) : string :=
  let f := filename name in
  if String.eqb f "." || String.eqb f ".." then ""
  else match last_from "." f with
       | Some e => e
       | None => ""
       end.

Definition find_language (name : string) : result EShLanguage :=
  let ext := extension name in
  if String.eqb ext ".vert" then Ok EShLangVertex
  else if String.eqb ext ".tesc" then Ok EShLangTessControl
  else if String.eqb ext ".tese" then Ok EShLangTessEvaluation
  else if String.eqb ext ".geom" then Ok EShLangGeometry
  else if String.eqb ext ".frag" then Ok EShLangFragment
  else if String.eqb ext ".comp" then Ok EShLangCompute
  else Throw (invalid_argument "Unknown file extension!").

(** ** [get_diagnostics] *)

(** The pattern of line 93: a group of [.] starred, the text [: 0:], a
    group of [\d] starred, the text [: ] and a group of [.] starred. *)
Definition re_diagnostic : Regex.regex :=
  Regex.Seq (Regex.Group (Regex.Star Regex.Any))
    (Regex.lit ": 0:"
       (Regex.Seq (Regex.Group (Regex.Star Regex.Digit))
          (Regex.lit ": " (Regex.Group (Regex.Star Regex.Any))))).

(** The pattern of line 127: a quote, a group of [.] starred, the text
    [' : ] and a group of [.] starred. *)
Definition re_identifier : Regex.regex :=
  Regex.lit "'"
    (Regex.Seq (Regex.Group (Regex.Star Regex.Any))
       (Regex.lit "' : " (Regex.Group (Regex.Star Regex.Any)))).

(** [v[i]] on a [std::vector]: no bounds check, so an index outside the
    vector is undefined behaviour.  A negative [int] converts to a
    [size_t] beyond every size. *)
Definition vector_at (v : list string) (i : Z) : result string :=
  if (0 <=? i) && (i <? Z.of_nat (List.length v))
  then match nth_error v (Z.to_nat i) with
       | Some x => Ok x
       | None => Undefined
       end
  else Undefined.

(** The severity number of a severity token. *)
Definition severity_number (severity : string) : Z :=
  if String.eqb severity "ERROR" then 1
  else if String.eqb severity "WARNING" then 2
  else -1.

(** The start and end character of the diagnostic (lines 121 to 139). *)
Definition character_span (message source_line : string) : Z * Z :=
  let message_matches := Regex.regex_search message re_identifier in
  if (List.length message_matches =? 3)%nat then
    let identifier := nth 1 message_matches "" in
    let identifier_length := to_int (size identifier) in
    let source_pos := find source_line identifier in
    let start_char := to_int source_pos in
    let end_char :=
      to_int (wrap_size_t
                (wrap_size_t (source_pos + wrap_size_t identifier_length) - 1)) in
    (start_char, end_char)
  else
    (0, to_int (size source_line)).

(** The body of the loop over the lines of the compiler log. *)
Definition diagnose_line (content_lines : list string) (diagnostics : json)
  (error_line : string) : M json :=
  (let matches := Regex.regex_search error_line re_diagnostic in
   if (List.length matches =? 4)%nat then
     let severity := nth 1 matches "" in
     let severity_no := severity_number severity in
     a <- get_appstate ;;
     when ((severity_no =? -1) && use_logfile a)
       (print_log ("Error: Unknown severity '" ++ severity ++ "'" ++ NL)) ;;
     let message := trim (nth 3 matches "") " " in
     n <- lift (stoi (nth 2 matches "")) ;;
     let line_no := n - 1 in
     source_line <- lift (vector_at content_lines line_no) ;;
     let '(start_char, end_char) := character_span message source_line in
     let range :=
       Json.object
         [("start", Json.object [("line", JInt line_no);
                                 ("character", JInt start_char)]);
          ("end", Json.object [("line", JInt line_no);
                               ("character", JInt end_char)])] in
     lift (let? diagnostic := Json.set_key JNull "range" range in
           let? diagnostic := Json.set_key diagnostic "severity" (JInt severity_no) in
           let? diagnostic := Json.set_key diagnostic "source" (JString "glslang") in
           let? diagnostic := Json.set_key diagnostic "message" (JString message) in
           Json.push_back diagnostics diagnostic)%result
   else
     ret diagnostics)%monad.

(** The swap of [stdout] around the compiler call and the process-wide
    initialisation of glslang have no bearing on the value returned and are
    left out. *)
Definition get_diagnostics `{Collaborators} (uri content : string) : M json :=
  (let document := uri in
   lang <- lift (find_language document) ;;
   debug_log <- shader_parse lang content ;;
   a <- get_appstate ;;
   when (use_logfile a && verbose a)
     (print_log ("Diagnostics raw output: " ++ debug_log ++ NL)) ;;
   let error_lines := split_string debug_log NL in
   let content_lines := split_string content NL in
   diagnostics <- for_each error_lines (diagnose_line content_lines) JNull ;;
   when (use_logfile a && verbose a)
     (print_log ("Sending diagnostics: " ++ dump (-1) diagnostics ++ NL)) ;;
   ret diagnostics)%monad.

(** ** [handle_message] *)

(** Modelled from the spec: the [MessageBuffer] class of
    [messagebuffer.hpp], which is not part of the sources.  The record
    holds what its accessors return once [handle_string] has consumed the
    bytes of a request: "a completion predicate and, once true, [...] the
    headers, the body (deserialized into a structured document [...]) and
    the original raw bytes". *)
Record MessageBuffer : Type := mkMessageBuffer {
  message_completed : bool;
  headers : list (string * string);
  body : json;
  raw : string
}.

(** The capabilities descriptor of lines 176 to 227.  An empty pair of
    braces in an initializer list is a null value. *)
Definition initialize_result : json :=
  let text_document_sync :=
    Json.object
      [("openClose", JBool true);
       ("change", JInt 1);
       ("willSave", JBool false);
       ("willSaveWaitUntil", JBool false);
       ("save", Json.object [("includeText", JBool false)])] in
  let completion_provider :=
    Json.object [("resolveProvider", JBool false); ("triggerCharacters", JNull)] in
  let signature_help_provider :=
    Json.object [("triggerCharacters", JString "")] in
  let code_lens_provider := Json.object [("resolveProvider", JBool false)] in
  let document_on_type_formatting_provider :=
    Json.object [("firstTriggerCharacter", JString "");
                 ("moreTriggerCharacter", JString "")] in
  let document_link_provider := Json.object [("resolveProvider", JBool false)] in
  let execute_command_provider := Json.object [("commands", JNull)] in
  Json.object
    [("capabilities",
      Json.object
        [("textDocumentSync", text_document_sync);
         ("hoverProvider", JBool false);
         ("completionProvider", completion_provider);
         ("signatureHelpProvider", signature_help_provider);
         ("definitionProvider", JBool false);
         ("referencesProvider", JBool false);
         ("documentHighlightProvider", JBool false);
         ("documentSymbolProvider", JBool false);
         ("workspaceSymbolProvider", JBool false);
         ("codeActionProvider", JBool false);
         ("codeLensProvider", code_lens_provider);
         ("documentFormattingProvider", JBool false);
         ("documentRangeFormattingProvider", JBool false);
         ("documentOnTypeFormattingProvider", document_on_type_formatting_provider);
         ("renameProvider", JBool false);
         ("documentLinkProvider", document_link_provider);
         ("executeCommandProvider", execute_command_provider);
         ("experimental", JNull)])].

(** [j[k1][k2]...]: a chain of subscripts read for its value. *)
Fixpoint at_path (j : json) (path : list string) : result json :=
  match path with
  | [] => Ok j
  | k :: path' => (let? v := Json.at_key j k in at_path v path')%result
  end.

(** The error payloads of lines 275 to 304. *)
Definition error_body (code : Z) (message : string) : json :=
  let error := Json.object [("code", JInt code); ("message", JString message)] in
  Json.object [("error", error)].

(** The notification of lines 243 to 249 and 261 to 267. *)
Definition publish_diagnostics (uri diagnostics : json) : json :=
  Json.object
    [("method", JString "textDocument/publishDiagnostics");
     ("params", Json.object [("uri", uri); ("diagnostics", diagnostics)])].

(** [body] is a local copy of the message body.  The first [body["method"]]
    leaves an entry for the key in it, which the later tests of
    [body["method"]] and [body.count("method")] read. *)
Definition handle_message `{Collaborators} (message_buffer : MessageBuffer)
  : M (option string) :=
  (let body := body message_buffer in
   '(method, body) <- lift (Json.subscript body "method") ;;
   if Json.eq_string method "initialized" then
     ret None
   else if Json.eq_string method "initialize" then
     update_workspace (WorkspaceOps.set_initialized true) ;;
     id <- lift (Json.at_key body "id") ;;
     let result_body := Json.object [("id", id); ("result", initialize_result)] in
     response <- lift (make_response result_body) ;;
     ret (Some response)
   else if Json.eq_string method "textDocument/didOpen" then
     uri <- lift (at_path body ["params"; "textDocument"; "uri"]) ;;
     text <- lift (at_path body ["params"; "textDocument"; "text"]) ;;
     uri_string <- lift (Json.get_string uri) ;;
     text_string <- lift (Json.get_string text) ;;
     update_workspace (WorkspaceOps.add_document uri_string text_string) ;;
     diagnostics <- get_diagnostics uri_string text_string ;;
     let diagnostics :=
       if Json.empty diagnostics then JArray [] else diagnostics in
     response <- lift (make_response (publish_diagnostics uri diagnostics)) ;;
     ret (Some response)
   else if Json.eq_string method "textDocument/didChange" then
     uri <- lift (at_path body ["params"; "textDocument"; "uri"]) ;;
     changes <- lift (at_path body ["params"; "contentChanges"]) ;;
     first_change <- lift (Json.at_index changes 0) ;;
     change <- lift (Json.at_key first_change "text") ;;
     uri_string <- lift (Json.get_string uri) ;;
     change_string <- lift (Json.get_string change) ;;
     update_workspace (WorkspaceOps.change_document uri_string change_string) ;;
     a <- get_appstate ;;
     let document := WorkspaceOps.document_text uri_string (workspace a) in
     diagnostics <- get_diagnostics uri_string document ;;
     let diagnostics :=
       if Json.empty diagnostics then JArray [] else diagnostics in
     response <- lift (make_response (publish_diagnostics uri diagnostics)) ;;
     ret (Some response)
   else
     a <- get_appstate ;;
     if negb (Json.eq_string method "initialize")
        && negb (WorkspaceOps.is_initialized (workspace a)) then
       response <- lift (make_response
                           (error_body (-32002) "Server not yet initialized.")) ;;
       ret (Some response)
     else if Json.count body "method" =? 1 then
       name <- lift (Json.get_string method) ;;
       response <- lift (make_response
                           (error_body (-32601)
                              ("Method '" ++ name ++ "' not supported."))) ;;
       ret (Some response)
     else
       response <- lift (make_response
                           (error_body (-32700) "Couldn't parse message.")) ;;
       ret (Some response))%monad.

(** ** [ev_handler] and the session *)

(** The callback for a complete HTTP request; [message_buffer] is the
    buffer after [handle_string(content)].  The buffer is local to the call,
    so clearing it at the end leaves nothing to record. *)
Definition ev_handler `{Collaborators} (message_buffer : MessageBuffer) : M unit :=
  (if message_completed message_buffer then
     let body := body message_buffer in
     a <- get_appstate ;;
     (if use_logfile a then
        '(method, body) <- lift (Json.subscript body "method") ;;
        name <- lift (Json.get_string method) ;;
        print_log (">>> Received message of type '" ++ name ++ "'" ++ NL) ;;
        when (verbose a)
          (print_log ("Headers:" ++ NL) ;;
           for_each (headers message_buffer)
             (fun _ elem => print_log (fst elem ++ ": " ++ snd elem ++ NL)) tt ;;
           print_log ("Body: " ++ NL ++ dump 4 body ++ NL ++ NL) ;;
           print_log ("Raw: " ++ NL ++ raw message_buffer ++ NL ++ NL))
      else ret tt) ;;
     message <- handle_message message_buffer ;;
     match message with
     | Some response =>
         send_reply (mkHttpReply 200 (size response) "Content-Type: text/plain"
                       response) ;;
         when (use_logfile a && verbose a)
           (print_log ("<<< Sending message: " ++ NL ++ response ++ NL ++ NL))
     | None => ret tt
     end
   else ret tt)%monad.

(** A session: the transport calls [ev_handler] once per request.  No
    function of the program catches an exception, so one that leaves
    [ev_handler] ends the run; the requests after it are not handled. *)
Fixpoint run_session `{Collaborators} (requests : list MessageBuffer) : M unit :=
  match requests with
  | [] => ret tt
  | r :: requests' => (ev_handler r ;; run_session requests')%monad
  end.

(** ** The message framer, as far as a produced frame is concerned *)

(** [strip_prefix p s]: what follows [p] in [s], when [s] starts with [p]. *)
Fixpoint strip_prefix (p s : string) : option string :=
  match p with
  | EmptyString => Some s
  | String a p' =>
      match s with
      | String b s' => if Ascii.eqb a b then strip_prefix p' s' else None
      | EmptyString => None
      end
  end.

(** The text before and after the first occurrence of [sep] in [s]. *)
Fixpoint cut (sep s : string) : option (string * string) :=
  match strip_prefix sep s with
  | Some rest => Some ("", rest)
  | None =>
      match s with
      | String c s' =>
          match cut sep s' with
          | Some (before, rest) => Some (String c before, rest)
          | None => None
          end
      | EmptyString => None
      end
  end.

Definition parse_header_line (line : string) : option (string * string) :=
  cut ": " line.

Fixpoint parse_headers (lines : list string) : list (string * string) :=
  match lines with
  | [] => []
  | line :: lines' =>
      match parse_header_line line with
      | Some h => h :: parse_headers lines'
      | None => parse_headers lines'
      end
  end.

Fixpoint header_value (name : string) (hs : list (string * string))
  : option string :=
  match hs with
  | [] => None
  | (n, v) :: hs' => if String.eqb name n then Some v else header_value name hs'
  end.

(** The value of a decimal numeral; nothing for a text that is not one. *)
Definition decimal_value (s : string) : option nat :=
  option_map Nat.of_uint (NilZero.uint_of_string s).

(** Modelled from the spec: the decoding side of the Message Framer
    ([messagebuffer.hpp] is not part of the sources), on a buffer that holds
    the bytes received so far.  It follows the four steps of the framer:
    "(1) locate the header/body separator; (2) parse header lines into a
    mapping; (3) read the declared content-length header; (4) check whether
    the accumulated buffer contains at least that many body bytes following
    the separator".  The result is the header mapping, the declared length
    and the body bytes; nothing while the message is incomplete or
    unparsable. *)
Definition decode_frame (buffer : string)
  : option (list (string * string) * nat * string) :=
  match cut (CRLF ++ CRLF) buffer with
  | None => None
  | Some (header_block, rest) =>
      let hs := parse_headers (split_string header_block CRLF) in
      match header_value "Content-Length" hs with
      | None => None
      | Some v =>
          match decimal_value v with
          | None => None
          | Some n =>
              if (n <=? String.length rest)%nat
              then Some (hs, n, substring 0 n rest)
              else None
          end
      end
  end.

(** ** A serializer and a compiler to run the definitions on

    [Reference.dump] prints a value the way [dump] lays it out: compact for
    a negative indent, otherwise one element per line with [indent] more
    spaces at each level.  It is an instance of [Collaborators] for the
    examples; the theorems hold for every instance. *)

Module Reference.

Definition DQUOTE : ascii := ascii_of_nat 34.
Definition BACKSLASH : ascii := ascii_of_nat 92.

Definition hex_digit (n : nat) : ascii :=
  if (n <? 10)%nat then ascii_of_nat (48 + n) else ascii_of_nat (87 + n).

Definition escape_char (c : ascii) : string :=
  let n := nat_of_ascii c in
  if (n =? 34)%nat then String BACKSLASH (String DQUOTE "")
  else if (n =? 92)%nat then String BACKSLASH (String BACKSLASH "")
  else if (n =? 8)%nat then String BACKSLASH "b"
  else if (n =? 12)%nat then String BACKSLASH "f"
  else if (n =? 10)%nat then String BACKSLASH "n"
  else if (n =? 13)%nat then String BACKSLASH "r"
  else if (n =? 9)%nat then String BACKSLASH "t"
  else if (n <? 32)%nat
       then String BACKSLASH
              ("u00" ++ String (hex_digit (n / 16)) (String (hex_digit (n mod 16)) ""))
  else String c "".

Fixpoint escape (s : string) : string :=
  match s with
  | EmptyString => ""
  | String c s' => escape_char c ++ escape s'
  end.

Definition quoted (s : string) : string :=
  String DQUOTE (escape s ++ String DQUOTE "").

Fixpoint spaces (n : nat) : string :=
  match n with
  | O => ""
  | S n' => String " " (spaces n')
  end.

Fixpoint join (sep : string) (l : list string) : string :=
  match l with
  | [] => ""
  | [x] => x
  | x :: l' => x ++ sep ++ join sep l'
  end.

Fixpoint compact (j : json) : string :=
  match j with
  | JNull => "null"
  | JBool b => if b then "true" else "false"
  | JInt z => NilZero.string_of_int (Z.to_int z)
  | JString s => quoted s
  | JArray l => "[" ++ join "," (map compact l) ++ "]"
  | JObject m =>
      "{" ++ join "," (map (fun kv => quoted (fst kv) ++ ":" ++ compact (snd kv)) m)
          ++ "}"
  end.

Fixpoint pretty (step current : nat) (j : json) : string :=
  match j with
  | JNull => "null"
  | JBool b => if b then "true" else "false"
  | JInt z => NilZero.string_of_int (Z.to_int z)
  | JString s => quoted s
  | JArray [] => "[]"
  | JArray l =>
      let inner := (current + step)%nat in
      "[" ++ NL
          ++ join ("," ++ NL)
               (map (fun v => spaces inner ++ pretty step inner v) l)
          ++ NL ++ spaces current ++ "]"
  | JObject [] => "{}"
  | JObject m =>
      let inner := (current + step)%nat in
      "{" ++ NL
          ++ join ("," ++ NL)
               (map (fun kv =>
                       spaces inner ++ quoted (fst kv) ++ ": "
                         ++ pretty step inner (snd kv)) m)
          ++ NL ++ spaces current ++ "}"
  end.

Definition dump (indent : Z) (j : json) : string :=
  if indent <? 0 then compact j else pretty (Z.to_nat indent) 0 j.

(** A compiler that answers every source with the same log. *)
Definition fixed_log (log : string) : Collaborators :=
  Build_Collaborators (fun _ _ => log) dump.

End Reference.

Definition initial_appstate (use_log verb : bool) : AppState :=
  mkAppState (mkWorkspace false []) verb use_log [].

Definition initial_world (use_log verb : bool) : World :=
  mkWorld (initial_appstate use_log verb) [] [].

(** The shader of lines 350 to 374, the document the program is run on. *)
Definition shader_lines : list string :=
  [""; "#version 450"; "#extension GL_ARB_separate_shader_objects : enable"; "";
   "layout(location = 0) out vec3 fragColor;"; "";
   "vec2 positions[3] = vec2[](";
   String TAB "vec2(0.0, -0.5),";
   String TAB "vec2(0.0, 0.5),";
   String TAB "vec2(-0.0, 0.5)";
   ");"; "";
   "vec3 colors[3] = vec3[](";
   String TAB "vec3(1.0, 0.0, 0.0), ";
   String TAB "vec3(0.0, 1.0, 0.0), ";
   String TAB "vec3(0.0, 0.0, 1.0)";
   ");"; "";
   "void main() {";
   "    vec4 testVector = {0.0f, 0.0f, 1.0f, 1.0f};"; "";
   String TAB "gl_Position = vec4(positions[gl_VertexIndex], 0.0, 1.0) + testVector;";
   String TAB "fragColor = colors[gl_VertexIndex];";
   "}"; ""].

Definition document : string := "shader.vert".

Definition content : string := Reference.join NL shader_lines.

(** The frame around a serialized body: the two header lines, the blank
    line and the body. *)
Definition framed (text : string) : string :=
  "Content-Length: " ++ to_string (String.length text) ++ CRLF
    ++ content_type_header ++ CRLF ++ CRLF ++ text.

(** The header mapping of such a frame. *)
Definition frame_headers (text : string) : list (string * string) :=
  [("Content-Length", to_string (String.length text));
   ("Content-Type", "application/vscode-jsonrpc;charset=utf-8")].

(** The value of [diagnostics] in the loop of [get_diagnostics] once the
    diagnostics of [l] have been pushed: null before the first push, an
    array afterwards. *)
Definition diagnostics_of (l : list json) : json :=
  match l with
  | [] => JNull
  | _ => JArray l
  end.

(** The two requests that trigger a diagnostic pass.
    [sync_request mb w uri uri_string text w0]: the message asks to open or
    change the document [uri]; the dispatcher brings the world from [w] to
    [w0] and then runs the pass on [text]. *)
Inductive sync_request (mb : MessageBuffer) (w : World)
  : json -> string -> string -> World -> Prop :=
| sync_open (uri_string text : string) :
    Json.lookup (body mb) "method" = Some (JString "textDocument/didOpen") ->
    at_path (body mb) ["params"; "textDocument"; "uri"] = Ok (JString uri_string) ->
    at_path (body mb) ["params"; "textDocument"; "text"] = Ok (JString text) ->
    sync_request mb w (JString uri_string) uri_string text
      (snd (update_workspace (WorkspaceOps.add_document uri_string text) w))
| sync_change (uri_string change : string) (changes first_change : json) :
    Json.lookup (body mb) "method" = Some (JString "textDocument/didChange") ->
    at_path (body mb) ["params"; "textDocument"; "uri"] = Ok (JString uri_string) ->
    at_path (body mb) ["params"; "contentChanges"] = Ok changes ->
    Json.at_index changes 0 = Ok first_change ->
    Json.at_key first_change "text" = Ok (JString change) ->
    let w0 := snd (update_workspace
                     (WorkspaceOps.change_document uri_string change) w) in
    sync_request mb w (JString uri_string) uri_string
      (WorkspaceOps.document_text uri_string (workspace (appstate w0))) w0.

(** A complete message with the body [j]. *)
Definition request (j : json) : MessageBuffer := mkMessageBuffer true [] j "".

(** The body of a ["textDocument/didOpen"] notification. *)
Definition did_open (uri text : string) : json :=
  Json.object
    [("method", JString "textDocument/didOpen");
     ("params",
      Json.object
        [("textDocument",
          Json.object [("uri", JString uri); ("text", JString text)])])].

(** The body of a ["textDocument/didChange"] notification with one change,
    the new text of the document. *)
Definition did_change (uri text : string) : json :=
  Json.object
    [("method", JString "textDocument/didChange");
     ("params",
      Json.object
        [("textDocument", Json.object [("uri", JString uri)]);
         ("contentChanges", JArray [Json.object [("text", JString text)]])])].

(** The body of an ["initialize"] request. *)
Definition initialize_request (id : Z) : json :=
  Json.object [("id", JInt id); ("method", JString "initialize")].

(** The content of an error response once [make_response] has tagged it. *)
Definition error_content (code : Z) (message : string) : json :=
  JObject [("error", JObject [("code", JInt code); ("message", JString message)]);
           ("jsonrpc", JString "2.0")].

(** The content of the answer to ["initialize"]. *)
Definition initialize_content (id : json) : json :=
  JObject [("id", id); ("jsonrpc", JString "2.0"); ("result", initialize_result)].

(** The content of a [textDocument/publishDiagnostics] notification. *)
Definition publish_content (uri diagnostics : json) : json :=
  JObject [("jsonrpc", JString "2.0");
           ("method", JString "textDocument/publishDiagnostics");
           ("params", JObject [("diagnostics", diagnostics); ("uri", uri)])].

(** The diagnostic that [diagnose_line] pushes, with its keys in the order
    of the map. *)
Definition diagnostic_value (severity_no line_no start_char end_char : Z)
  (message : string) : json :=
  JObject
    [("message", JString message);
     ("range",
      JObject
        [("end", JObject [("character", JInt end_char); ("line", JInt line_no)]);
         ("start", JObject [("character", JInt start_char); ("line", JInt line_no)])]);
     ("severity", JInt severity_no);
     ("source", JString "glslang")].

(** The world after the note on an unknown severity, which is written
    only when the log file is in use. *)
Definition after_severity_note (severity : string) (w : World) : World :=
  if (severity_number severity =? -1) && use_logfile (appstate w)
  then snd (print_log ("Error: Unknown severity '" ++ severity ++ "'" ++ NL) w)
  else w.

(** The extensions that [find_language] knows. *)
Definition known_extensions : list string :=
  [".vert"; ".tesc"; ".tese"; ".geom"; ".frag"; ".comp"].

(** ** [FindSymbolTraverser]

    The traverser of lines 377 to 447.  glslang walks the tree and calls one
    [visit] method per node; the walk is the list of the nodes in the order
    of these calls.  A method returns the traverser as it is afterwards and
    the text it sends to [std::cout]. *)

Module FindSymbolTraverser.

(** The two fields of glslang's [TSourceLoc] that are read. *)
Record TSourceLoc : Type := mkLoc {
  loc_line : Z;
  loc_column : Z
}.

(** A symbol node, as far as [getLoc] and [getName] show it. *)
Record TIntermSymbol : Type := mkSymbol {
  getLoc : TSourceLoc;
  getName : string
}.

Record traverser : Type := mkTraverser {
  line : Z;
  column : Z;
  symbol : option TIntermSymbol
}.

(** The constructor; [symbol] starts as [nullptr]. *)
Definition create (line column : Z) : traverser := mkTraverser line column None.

Definition getSymbol (t : traverser) : option TIntermSymbol := symbol t.

(** An [int] sent to a stream. *)
Definition int_text (z : Z) : string := NilZero.string_of_int (Z.to_int z).

Definition loc_text (loc : TSourceLoc) : string :=
  int_text (loc_line loc) ++ ":" ++ int_text (loc_column loc).

(** The test of lines 399 to 403.  [start] is an [int]; [end] is the sum of
    an [int] and a [size_t], hence a [size_t], and [column] is converted to
    [size_t] for the comparison with it. *)
Definition covers (t : traverser) (interm : TIntermSymbol) : bool :=
  let loc := getLoc interm in
  let name := getName interm in
  if line t =? loc_line loc then
    let start := loc_column loc in
    let end_ := wrap_size_t (wrap_size_t (loc_column loc) + size name) in
    (start <=? column t) && (wrap_size_t (column t) <=? end_)
  else false.

Definition visitSymbol (t : traverser) (interm : TIntermSymbol)
  : traverser * string :=
  let out := "visitSymbol " ++ loc_text (getLoc interm) ++ ", "
               ++ getName interm ++ NL in
  (if covers t interm
   then mkTraverser (line t) (column t) (Some interm)
   else t,
   out).

(** The nodes other than symbols; each visit prints the kind of the node
    and its location. *)
Inductive node : Type :=
| Symbol (interm : TIntermSymbol)
| ConstantUnion (loc : TSourceLoc)
| Binary (loc : TSourceLoc)
| Unary (loc : TSourceLoc)
| Selection (loc : TSourceLoc)
| Aggregate (loc : TSourceLoc)
| Loop (loc : TSourceLoc)
| Branch (loc : TSourceLoc)
| Switch (loc : TSourceLoc).

Definition visit (t : traverser) (n : node) : traverser * string :=
  match n with
  | Symbol interm => visitSymbol t interm
  | ConstantUnion loc => (t, "visitConstantUnion " ++ loc_text loc ++ NL)
  | Binary loc => (t, "visitBinary " ++ loc_text loc ++ NL)
  | Unary loc => (t, "visitUnary " ++ loc_text loc ++ NL)
  | Selection loc => (t, "visitSelection " ++ loc_text loc ++ NL)
  | Aggregate loc => (t, "visitAggregate " ++ loc_text loc ++ NL)
  | Loop loc => (t, "visitLoop " ++ loc_text loc ++ NL)
  | Branch loc => (t, "visitBranch " ++ loc_text loc ++ NL)
  | Switch loc => (t, "visitSwitch " ++ loc_text loc ++ NL)
  end.

(** [root->traverse(&traverser)] on a walk. *)
Fixpoint traverse (walk : list node) (t : traverser) : traverser * string :=
  match walk with
  | [] => (t, "")
  | n :: walk' =>
      let '(t1, out1) := visit t n in
      let '(t2, out2) := traverse walk' t1 in
      (t2, out1 ++ out2)
  end.

(** The symbols of a walk, in the order of the visits. *)
Fixpoint symbols (walk : list node) : list TIntermSymbol :=
  match walk with
  | [] => []
  | Symbol interm :: walk' => interm :: symbols walk'
  | _ :: walk' => symbols walk'
  end.

End FindSymbolTraverser.

(** ** Notions used to state the properties *)

Fixpoint all_chars (p : ascii -> bool) (s : string) : bool :=
  match s with
  | EmptyString => true
  | String c s' => p c && all_chars p s'
  end.

(** A text without a line terminator: what [.] starred can run over. *)
Definition one_line (s : string) : bool :=
  all_chars (Regex.accepts Regex.Any) s.

(** The extension of each stage. *)
Definition extension_of (lang : EShLanguage) : string :=
  match lang with
  | EShLangVertex => ".vert"
  | EShLangTessControl => ".tesc"
  | EShLangTessEvaluation => ".tese"
  | EShLangGeometry => ".geom"
  | EShLangFragment => ".frag"
  | EShLangCompute => ".comp"
  end.


(** The two parts of [ev_handler] around the call of [handle_message]: the
    notes on the request (lines 321 to 332) and the reply (lines 335 to
    342). *)
Definition log_request `{Collaborators} (message_buffer : MessageBuffer)
  (a : AppState) : M unit :=
  (if use_logfile a then
     '(method, body) <- lift (Json.subscript (body message_buffer) "method") ;;
     name <- lift (Json.get_string method) ;;
     print_log (">>> Received message of type '" ++ name ++ "'" ++ NL) ;;
     when (verbose a)
       (print_log ("Headers:" ++ NL) ;;
        for_each (headers message_buffer)
          (fun _ elem => print_log (fst elem ++ ": " ++ snd elem ++ NL)) tt ;;
        print_log ("Body: " ++ NL ++ dump 4 body ++ NL ++ NL) ;;
        print_log ("Raw: " ++ NL ++ raw message_buffer ++ NL ++ NL))
   else ret tt)%monad.

Definition relay_response (a : AppState) (message : option string) : M unit :=
  (match message with
   | Some response =>
       send_reply (mkHttpReply 200 (size response) "Content-Type: text/plain"
                     response) ;;
       when (use_logfile a && verbose a)
         (print_log ("<<< Sending message: " ++ NL ++ response ++ NL ++ NL))
   | None => ret tt
   end)%monad.

(** Relations between the world before and after a call. *)

Definition initialized_in (w : World) : bool :=
  WorkspaceOps.is_initialized (workspace (appstate w)).

Definition same_logging (w w' : World) : Prop :=
  use_logfile (appstate w') = use_logfile (appstate w).

(** The initialized flag is not cleared. *)
Definition stays_initialized (w w' : World) : Prop :=
  same_logging w w' /\ (initialized_in w = true -> initialized_in w' = true).

(** Nothing is written to the log file when it is not in use. *)
Definition quiet_without_log_file (w w' : World) : Prop :=
  same_logging w w' /\
  (use_logfile (appstate w) = false ->
   logfile_stream (appstate w') = logfile_stream (appstate w)).

(** Nothing is sent on the connection. *)
Definition sends_nothing (w w' : World) : Prop :=
  same_logging w w' /\ sent w' = sent w.

(** The compiler is not called. *)
Definition compiles_nothing (w w' : World) : Prop :=
  same_logging w w' /\ shader_parses w' = shader_parses w.

(** A world after the handshake, with nothing opened, logged or sent. *)
Definition initialized_world (use_log verb : bool) : World :=
  mkWorld (mkAppState (mkWorkspace true []) verb use_log []) [] [].

(** * Properties *)

(** ** Strings and numerals *)

Lemma append_assoc (a b c : string) : (a ++ b) ++ c = a ++ (b ++ c).
Proof.
  induction a as [|x a IH]; simpl; [reflexivity | now rewrite IH].
Qed.

Lemma append_empty_r (a : string) : a ++ "" = a.
Proof.
  induction a as [|x a IH]; simpl; [reflexivity | now rewrite IH].
Qed.

Lemma to_uint_not_nil (n : nat) : Nat.to_uint n <> Nil.
Proof.
  rewrite <- (Unsigned.of_to n) at 1.
  rewrite Unsigned.to_of. apply DecimalFacts.unorm_nonnil.
Qed.

Lemma decimal_value_to_string (n : nat) : decimal_value (to_string n) = Some n.
Proof.
  unfold decimal_value, to_string.
  rewrite NilZero.usu by apply to_uint_not_nil.
  simpl. now rewrite Unsigned.of_to.
Qed.

(** A decimal numeral holds digits only. *)
Lemma to_string_avoids (c : ascii) (n : nat) :
  is_digit c = false -> mem_char c (to_string n) = false.
Proof.
  intros Hc. unfold to_string, NilZero.string_of_uint.
  assert (G : forall d, mem_char c (NilEmpty.string_of_uint d) = false).
  { induction d; simpl; trivial; rewrite IHd, orb_false_r;
      apply Ascii.eqb_neq; intros ->; discriminate. }
  destruct (Nat.to_uint n); try apply G.
  simpl. rewrite orb_false_r. apply Ascii.eqb_neq. intros ->. discriminate.
Qed.

(** ** Cutting and splitting *)

Lemma cut_skip (c : ascii) (sep a s : string) :
  mem_char c a = false ->
  cut (String c sep) (a ++ s) =
  match cut (String c sep) s with
  | Some (before, rest) => Some (a ++ before, rest)
  | None => None
  end.
Proof.
  induction a as [|x a IH]; intros Ha.
  - simpl append. destruct (cut (String c sep) s) as [[? ?]|]; reflexivity.
  - simpl in Ha. apply orb_false_iff in Ha. destruct Ha as [Hx Ha].
    change (String x a ++ s) with (String x (a ++ s)).
    cbn [cut strip_prefix]. rewrite Hx, (IH Ha).
    destruct (cut (String c sep) s) as [[? ?]|]; reflexivity.
Qed.

Lemma cut_cons (sep : string) (x : ascii) (s : string) :
  strip_prefix sep (String x s) = None ->
  cut sep (String x s) =
  match cut sep s with
  | Some (before, rest) => Some (String x before, rest)
  | None => None
  end.
Proof.
  intros E. cbn [cut]. rewrite E.
  destruct (cut sep s) as [[? ?]|]; reflexivity.
Qed.

Lemma cut_here (sep s : string) : cut sep (sep ++ s) = Some ("", s).
Proof.
  assert (G : strip_prefix sep (sep ++ s) = Some s).
  { induction sep as [|x sep IH]; simpl; [reflexivity|].
    now rewrite Ascii.eqb_refl. }
  destruct sep as [|x sep]; [destruct s; reflexivity|].
  change (String x sep ++ s) with (String x (sep ++ s)) in *.
  cbn [cut]. now rewrite G.
Qed.

Lemma split_from_skip (c : ascii) (sep a cur s : string) :
  mem_char c a = false ->
  split_from (String c sep) 0 cur (a ++ s) =
  split_from (String c sep) 0 (cur ++ a) s.
Proof.
  revert cur. induction a as [|x a IH]; intros cur Ha.
  - simpl. now rewrite append_empty_r.
  - simpl in Ha. apply orb_false_iff in Ha. destruct Ha as [Hx Ha].
    change (String x a ++ s) with (String x (a ++ s)).
    cbn [split_from]. cbn [String.eqb negb andb].
    replace (prefix (String c sep) (String x (a ++ s))) with false.
    + rewrite (IH _ Ha). now rewrite append_assoc.
    + simpl. destruct (ascii_dec c x) as [->|]; [|reflexivity].
      now rewrite Ascii.eqb_refl in Hx.
Qed.

Lemma split_from_separator (cur s : string) :
  split_from CRLF 0 cur (CRLF ++ s) = cur :: split_from CRLF 0 "" s.
Proof. destruct s; reflexivity. Qed.

Lemma substring_whole (s : string) : substring 0 (String.length s) s = s.
Proof.
  induction s as [|x s IH]; simpl; [reflexivity | now rewrite IH].
Qed.

(** ** The frame *)

Lemma cut_framed (text : string) :
  cut (CRLF ++ CRLF) (framed text) =
  Some (("Content-Length: " ++ to_string (String.length text))
          ++ CRLF ++ content_type_header, text).
Proof.
  unfold framed.
  rewrite <- (append_assoc "Content-Length: " (to_string (String.length text))).
  change (CRLF ++ CRLF) with (String CR (String LF CRLF)).
  rewrite cut_skip.
  2:{ change ("Content-Length: " ++ to_string (String.length text))
        with (String "C" (String "o" (String "n" (String "t" (String "e"
             (String "n" (String "t" (String "-" (String "L" (String "e"
             (String "n" (String "g" (String "t" (String "h" (String ":"
             (String " " (to_string (String.length text)))))))))))))))))).
      cbn [mem_char]. rewrite to_string_avoids by reflexivity. reflexivity. }
  change (CRLF ++ content_type_header ++ CRLF ++ CRLF ++ text)
    with (String CR (String LF content_type_header
                       ++ String CR (String LF CRLF) ++ text)).
  rewrite cut_cons by reflexivity.
  rewrite (cut_skip CR _ (String LF content_type_header)) by reflexivity.
  rewrite cut_here, append_empty_r. reflexivity.
Qed.

Lemma parse_framed_headers (text : string) :
  parse_headers
    (split_string
       (("Content-Length: " ++ to_string (String.length text))
          ++ CRLF ++ content_type_header) CRLF) = frame_headers text.
Proof.
  unfold split_string.
  change (split_from CRLF) with (split_from (String CR (String LF ""))).
  rewrite split_from_skip.
  2:{ change ("Content-Length: " ++ to_string (String.length text))
        with (String "C" (String "o" (String "n" (String "t" (String "e"
             (String "n" (String "t" (String "-" (String "L" (String "e"
             (String "n" (String "g" (String "t" (String "h" (String ":"
             (String " " (to_string (String.length text)))))))))))))))))).
      cbn [mem_char]. rewrite to_string_avoids by reflexivity. reflexivity. }
  change (String CR (String LF "")) with CRLF.
  rewrite split_from_separator.
  change (split_from CRLF 0 "" content_type_header) with [content_type_header].
  cbn [parse_headers append]. unfold parse_header_line.
  pose proof (cut_skip ":" " " "Content-Length"
                (": " ++ to_string (String.length text)) eq_refl) as K.
  rewrite cut_here in K. cbn [append] in K. rewrite K. reflexivity.
Qed.

Lemma decode_framed (text : string) :
  decode_frame (framed text) = Some (frame_headers text, String.length text, text).
Proof.
  unfold decode_frame. rewrite cut_framed, parse_framed_headers.
  cbn [frame_headers header_value].
  change (String.eqb "Content-Length" "Content-Length") with true. cbv iota.
  rewrite decimal_value_to_string, Nat.leb_refl, substring_whole. reflexivity.
Qed.

(** ** The encoder *)

Lemma make_response_object `{Collaborators} (m : list (string * json)) :
  make_response (JObject m) =
  Ok (framed (dump 4 (JObject (Json.obj_set "jsonrpc" (JString "2.0") m)))).
Proof.
  unfold make_response, framed. cbn [Json.set_key rbind].
  now rewrite !append_assoc.
Qed.

(** C8.  For every payload (a JSON object [m]), [make_response] emits the
    frame made of the [Content-Length] line, the [Content-Type] line, a
    blank line and the serialized payload carrying the ["jsonrpc"] tag.
    The declared length is the number of bytes of that body, and decoding
    the frame gives back the two headers, the declared length and exactly
    the bytes of the body. *)
Theorem make_response_length_is_byte_exact `{Collaborators}
  (m : list (string * json)) :
  let content := JObject (Json.obj_set "jsonrpc" (JString "2.0") m) in
  let text := dump 4 content in
  exists frame,
    make_response (JObject m) = Ok frame /\
    frame = "Content-Length: " ++ to_string (String.length text) ++ CRLF
              ++ content_type_header ++ CRLF ++ CRLF ++ text /\
    decode_frame frame =
      Some ([("Content-Length", to_string (String.length text));
             ("Content-Type", "application/vscode-jsonrpc;charset=utf-8")],
            String.length text, text).
Proof.
  intros content text. exists (framed text). split; [|split].
  - apply make_response_object.
  - reflexivity.
  - apply decode_framed.
Qed.

(** ** The diagnostic translator *)

Lemma push_back_diagnostics (l : list json) (d : json) :
  Json.push_back (diagnostics_of l) d = Ok (diagnostics_of (l ++ [d])).
Proof. destruct l as [|x l]; [reflexivity|]. destruct l; reflexivity. Qed.

(** One turn of the loop on a log line that matches the pattern, whose
    line number reads as [n] and designates a line of the source. *)
Lemma diagnose_line_match (content_lines : list string) (l : list json)
  (error_line whole severity line message source_line : string) (n : Z)
  (w : World) :
  Regex.regex_search error_line re_diagnostic = [whole; severity; line; message] ->
  stoi line = Ok n ->
  vector_at content_lines (n - 1) = Ok source_line ->
  diagnose_line content_lines (diagnostics_of l) error_line w =
  (Ok (diagnostics_of
         (l ++ [diagnostic_value (severity_number severity) (n - 1)
                  (fst (character_span (trim message " ") source_line))
                  (snd (character_span (trim message " ") source_line))
                  (trim message " ")])),
   after_severity_note severity w).
Proof.
  intros Hre Hn Hv. unfold diagnose_line. rewrite Hre.
  cbn [List.length Nat.eqb nth]. unfold get_appstate. cbn [bind].
  unfold after_severity_note, when.
  destruct ((severity_number severity =? -1) && use_logfile (appstate w));
    unfold print_log, ret, bind, lift; rewrite Hn, Hv;
    destruct (character_span (trim message " ") source_line) as [start_char end_char];
    cbn [fst snd]; f_equal; apply push_back_diagnostics.
Qed.

(** X21.  A line number outside the source makes the unchecked access
    [content_lines[line_no]] undefined: nothing is skipped and the loop
    does not go on. *)
Lemma diagnose_line_outside (content_lines : list string) (diagnostics : json)
  (error_line whole severity line message : string) (n : Z) (w : World) :
  Regex.regex_search error_line re_diagnostic = [whole; severity; line; message] ->
  stoi line = Ok n ->
  n - 1 < 0 \/ Z.of_nat (List.length content_lines) <= n - 1 ->
  fst (diagnose_line content_lines diagnostics error_line w) = Undefined.
Proof.
  intros Hre Hn Ho. unfold diagnose_line. rewrite Hre.
  cbn [List.length Nat.eqb nth]. unfold get_appstate. cbn [bind].
  assert (Hv : vector_at content_lines (n - 1) = Undefined).
  { unfold vector_at.
    destruct (0 <=? n - 1) eqn:E0; [|reflexivity].
    destruct (n - 1 <? Z.of_nat (List.length content_lines)) eqn:E1;
      [|reflexivity]. lia. }
  unfold when.
  destruct ((severity_number severity =? -1) && use_logfile (appstate w));
    unfold print_log, ret, bind, lift; rewrite Hn, Hv; reflexivity.
Qed.

Lemma to_int_small (z : Z) : - 2 ^ 31 <= z < 2 ^ 31 -> to_int z = z.
Proof. intros Hz. unfold to_int. rewrite Z.mod_small; lia. Qed.

(** X20.  An identifier that is quoted in the message but absent from the
    source line gives the span from [-1] to the length of the identifier
    minus two, not the whole line. *)
Lemma character_span_not_found (message source_line whole identifier detail : string) :
  Regex.regex_search message re_identifier = [whole; identifier; detail] ->
  String.index 0 identifier source_line = None ->
  size identifier < 2 ^ 31 ->
  character_span message source_line = (-1, size identifier - 2).
Proof.
  intros Hre Hi Hs. unfold character_span. rewrite Hre.
  cbn [List.length Nat.eqb nth]. unfold find. rewrite Hi.
  assert (H0 : 0 <= size identifier) by (unfold size; lia).
  rewrite (to_int_small (size identifier)) by lia.
  assert (E : to_int npos = -1) by reflexivity. rewrite E. f_equal.
  unfold wrap_size_t, npos.
  rewrite (Z.mod_small (size identifier)) by lia.
  replace (2 ^ 64 - 1 + size identifier)
    with (size identifier - 1 + 1 * 2 ^ 64) by lia.
  rewrite Z.mod_add by lia.
  destruct (Z.eq_dec (size identifier) 0) as [E0|E0].
  { rewrite E0. reflexivity. }
  rewrite (Z.mod_small (size identifier - 1)) by lia.
  destruct (Z.eq_dec (size identifier) 1) as [E1|E1].
  { rewrite E1. reflexivity. }
  rewrite (Z.mod_small (size identifier - 1 - 1)) by lia.
  rewrite to_int_small by lia. lia.
Qed.

(** An identifier found at [offset] gives the span of its occurrence. *)
Lemma character_span_found (message source_line whole identifier detail : string)
  (offset : nat) :
  Regex.regex_search message re_identifier = [whole; identifier; detail] ->
  String.index 0 identifier source_line = Some offset ->
  identifier <> "" ->
  Z.of_nat offset + size identifier < 2 ^ 31 ->
  character_span message source_line =
  (Z.of_nat offset, Z.of_nat offset + size identifier - 1).
Proof.
  intros Hre Hi Hne Hs. unfold character_span. rewrite Hre.
  cbn [List.length Nat.eqb nth]. unfold find. rewrite Hi.
  assert (H0 : 1 <= size identifier).
  { unfold size. destruct identifier; [contradiction|]. simpl String.length. lia. }
  rewrite (to_int_small (size identifier)) by lia.
  unfold wrap_size_t.
  rewrite (Z.mod_small (size identifier)) by lia.
  rewrite (Z.mod_small (Z.of_nat offset + size identifier)) by lia.
  rewrite (Z.mod_small (Z.of_nat offset + size identifier - 1)) by lia.
  rewrite !to_int_small by lia. reflexivity.
Qed.

(** An empty compiler log gives no diagnostic: the translator returns the
    null value it started from. *)
Lemma empty_log_gives_null `{Collaborators} (uri text : string)
  (lang : EShLanguage) (w : World) :
  find_language uri = Ok lang ->
  info_log lang text = "" ->
  fst (get_diagnostics uri text w) = Ok JNull.
Proof.
  intros Hl He. unfold get_diagnostics, bind, lift, shader_parse.
  rewrite Hl, He. unfold get_appstate. cbn [appstate].
  change (split_string "" NL) with [""]. cbn [for_each].
  unfold when, bind.
  destruct (use_logfile (appstate w) && verbose (appstate w)); reflexivity.
Qed.

(** C4, amended.  For the log line
    [ERROR: 0:7: 'positions' : redefinition], when the seventh line of the
    source holds "positions" (first at [offset]), the loop pushes exactly
    one diagnostic: severity 1 (Error), line 6, start character [offset],
    end character [offset] plus the length of "positions" minus one, source
    "glslang", and for message the whole trimmed MESSAGE,
    ['positions' : redefinition]. *)
Theorem redefinition_line_gives_one_diagnostic (content_lines : list string)
  (l : list json) (source_line : string) (offset : nat) (w : World) :
  nth_error content_lines 6 = Some source_line ->
  String.index 0 "positions" source_line = Some offset ->
  Z.of_nat offset + 9 < 2 ^ 31 ->
  diagnose_line content_lines (diagnostics_of l)
    "ERROR: 0:7: 'positions' : redefinition" w =
  (Ok (diagnostics_of
         (l ++ [diagnostic_value 1 6 (Z.of_nat offset)
                  (Z.of_nat offset + size "positions" - 1)
                  "'positions' : redefinition"])), w).
Proof.
  intros Hl Hi Hs.
  assert (Hre : Regex.regex_search "ERROR: 0:7: 'positions' : redefinition"
                  re_diagnostic =
                ["ERROR: 0:7: 'positions' : redefinition"; "ERROR"; "7";
                 "'positions' : redefinition"]) by (vm_compute; reflexivity).
  assert (Hv : vector_at content_lines (7 - 1) = Ok source_line).
  { unfold vector_at. change (Z.to_nat (7 - 1)) with 6%nat. rewrite Hl.
    assert (Hlen : (6 < List.length content_lines)%nat)
      by (apply nth_error_Some; congruence).
    replace ((0 <=? 7 - 1) && (7 - 1 <? Z.of_nat (List.length content_lines)))
      with true; [reflexivity|].
    symmetry. apply andb_true_iff. split; [reflexivity|].
    apply Z.ltb_lt. lia. }
  rewrite (diagnose_line_match _ _ _ _ _ _ _ _ 7 w Hre eq_refl Hv).
  change (trim "'positions' : redefinition" " ") with "'positions' : redefinition".
  assert (Hid : Regex.regex_search "'positions' : redefinition" re_identifier =
                ["'positions' : redefinition"; "positions"; "redefinition"])
    by (vm_compute; reflexivity).
  rewrite (character_span_found _ _ _ _ _ _ Hid Hi)
    by (try discriminate; change (size "positions") with 9; lia).
  reflexivity.
Qed.

(** C6, amended.  For a log line that matches the outer pattern and whose
    line number designates a line of the source, one diagnostic is pushed
    and its severity is 1 for the token ERROR, 2 for WARNING and -1 for any
    other token.  The pass goes on in every case; for another token a note
    is written to the log file when the log file is in use, and nothing is
    written otherwise. *)
Theorem severity_token_is_mapped (content_lines : list string) (l : list json)
  (error_line whole severity line message source_line : string) (n : Z)
  (w : World) :
  Regex.regex_search error_line re_diagnostic = [whole; severity; line; message] ->
  stoi line = Ok n ->
  vector_at content_lines (n - 1) = Ok source_line ->
  exists diagnostic,
    diagnose_line content_lines (diagnostics_of l) error_line w =
      (Ok (diagnostics_of (l ++ [diagnostic])), after_severity_note severity w) /\
    Json.lookup diagnostic "severity" = Some (JInt (severity_number severity)) /\
    (severity = "ERROR" -> severity_number severity = 1) /\
    (severity = "WARNING" -> severity_number severity = 2) /\
    (severity <> "ERROR" -> severity <> "WARNING" ->
     severity_number severity = -1 /\
     logfile_stream (appstate (after_severity_note severity w)) =
       (logfile_stream (appstate w)
          ++ (if use_logfile (appstate w)
              then [("Error: Unknown severity '" ++ severity ++ "'" ++ NL)%string]
              else []))%list).
Proof.
  intros Hre Hn Hv. eexists. split; [|split; [|split; [|split]]].
  - apply (diagnose_line_match _ _ _ _ _ _ _ _ _ _ Hre Hn Hv).
  - reflexivity.
  - intros ->. reflexivity.
  - intros ->. reflexivity.
  - intros He Hw. unfold after_severity_note, severity_number.
    apply String.eqb_neq in He, Hw. rewrite He, Hw.
    cbn [Z.eqb andb]. split; [reflexivity|].
    destruct (use_logfile (appstate w)); simpl.
    + reflexivity.
    + now rewrite app_nil_r.
Qed.

(** ** The dispatcher *)

Section Dispatcher.

Context `{Collaborators}.

Lemma bind_ok {A B} (c : M A) (f : A -> M B) (w w1 : World) (a : A) :
  c w = (Ok a, w1) -> bind c f w = f a w1.
Proof. intros E. unfold bind. now rewrite E. Qed.

Lemma bind_lift_ok {A B} (r : result A) (f : A -> M B) (w : World) (a : A) :
  r = Ok a -> bind (lift r) f w = f a w.
Proof. intros ->. reflexivity. Qed.

Lemma subscript_present (m : list (string * json)) (key : string) (v : json) :
  Json.obj_find key m = Some v ->
  Json.subscript (JObject m) key = Ok (v, JObject m).
Proof. intros E. unfold Json.subscript. now rewrite E. Qed.

Lemma lookup_object (j : json) (key : string) (v : json) :
  Json.lookup j key = Some v ->
  exists m, j = JObject m /\ Json.obj_find key m = Some v.
Proof. destruct j; simpl; try discriminate. intros E. eauto. Qed.

(** C9.  A message whose method is ["initialized"] gets no answer:
    [handle_message] returns no value, whatever the state of the
    workspace, and changes nothing.  Returning no value ([None]) is not
    returning a frame ([Some]), be it an error frame. *)
Theorem initialized_produces_no_message (mb : MessageBuffer) (w : World) :
  Json.lookup (body mb) "method" = Some (JString "initialized") ->
  handle_message mb w = (Ok None, w) /\
  forall frame w', handle_message mb w <> (Ok (Some frame), w').
Proof.
  intros E. apply lookup_object in E. destruct E as (m & Eb & Em).
  assert (G : handle_message mb w = (Ok None, w)).
  { unfold handle_message. rewrite Eb.
    rewrite (bind_lift_ok _ _ _ _ (subscript_present _ _ _ Em)).
    reflexivity. }
  split; [exact G|]. intros frame w'. rewrite G. discriminate.
Qed.

Lemma bind_inv_ok {A B} (c : M A) (f : A -> M B) (w w' : World) (b : B) :
  bind c f w = (Ok b, w') ->
  exists a w1, c w = (Ok a, w1) /\ f a w1 = (Ok b, w').
Proof.
  unfold bind. destruct (c w) as [[a|e|] w1]; try discriminate. eauto.
Qed.

Lemma lift_inv_ok {A} (r : result A) (w w' : World) (a : A) :
  lift r w = (Ok a, w') -> r = Ok a /\ w' = w.
Proof. unfold lift. intros [= -> ->]. auto. Qed.

Lemma ret_inv {A} (a b : A) (w w' : World) :
  ret a w = (Ok b, w') -> a = b /\ w' = w.
Proof. unfold ret. intros [= -> ->]. auto. Qed.

Lemma make_response_error (code : Z) (message : string) :
  make_response (error_body code message) =
  Ok (framed (dump 4 (error_content code message))).
Proof. apply make_response_object. Qed.

Lemma make_response_initialize (id : json) :
  make_response (Json.object [("id", id); ("result", initialize_result)]) =
  Ok (framed (dump 4 (initialize_content id))).
Proof. apply make_response_object. Qed.

Lemma make_response_publish (uri diagnostics : json) :
  make_response (publish_diagnostics uri diagnostics) =
  Ok (framed (dump 4 (publish_content uri diagnostics))).
Proof. apply make_response_object. Qed.

Lemma eq_string_true (v : json) (s : string) :
  Json.eq_string v s = true -> v = JString s.
Proof.
  destruct v; simpl; try discriminate. intros E.
  apply String.eqb_eq in E. now subst.
Qed.

(** A subscript that reads a string found it in the container, which
    is left as it was. *)
Lemma subscript_string (j j' v : json) (key s : string) :
  Json.subscript j key = Ok (v, j') -> Json.eq_string v s = true ->
  v = JString s /\ j' = j /\ Json.lookup j key = Some (JString s).
Proof.
  intros E Ev. apply eq_string_true in Ev. subst v.
  destruct j; simpl in E; try discriminate.
  destruct (Json.obj_find key m) eqn:Ef; inversion E; subst. auto.
Qed.

(** After the first [body["method"]] the body has an entry for the
    key. *)
Lemma subscript_count (j j' v : json) (key : string) :
  Json.subscript j key = Ok (v, j') -> Json.count j' key = 1.
Proof.
  destruct j; simpl; try discriminate.
  - intros [= <- <-]. simpl. now rewrite String.eqb_refl.
  - destruct (Json.obj_find key m) eqn:Ef; intros [= <- <-]; simpl.
    + now rewrite Ef.
    + assert (G : forall m0, Json.obj_find key (Json.obj_set key JNull m0)
                             = Some JNull).
      { induction m0 as [|[k w0] m0 IH]; simpl.
        - now rewrite String.eqb_refl.
        - destruct (String.compare key k) eqn:Ec; simpl.
          + now rewrite String.eqb_refl.
          + now rewrite String.eqb_refl.
          + destruct (String.eqb key k) eqn:Ek; [|exact IH].
            apply String.eqb_eq in Ek. subst k.
            pose proof (String.compare_antisym key key) as Ha.
            rewrite Ec in Ha. discriminate. }
      now rewrite G.
Qed.

Ltac inv_bind E x w E' :=
  apply bind_inv_ok in E; destruct E as (x & w & E' & E).
Ltac inv_lift E :=
  apply lift_inv_ok in E; let Hw := fresh in destruct E as [E Hw]; subst.

(** C10.  A frame returned by [handle_message] is the encoding of one of
    three contents.  An error response holds the error object with its
    code and message and the ["jsonrpc"] tag, nothing else: it has no
    ["id"], whatever the request held.  The answer to ["initialize"]
    holds the id read from the request.  The third content is the
    diagnostics notification. *)
Theorem error_responses_omit_id (mb : MessageBuffer) (w w' : World)
  (out : string) :
  handle_message mb w = (Ok (Some out), w') ->
  (exists code message,
      In code [-32002; -32601; -32700] /\
      out = framed (dump 4 (error_content code message)) /\
      Json.keys (error_content code message) = ["error"; "jsonrpc"] /\
      Json.lookup (error_content code message) "id" = None /\
      Json.lookup (error_content code message) "error" =
        Some (JObject [("code", JInt code); ("message", JString message)]))
  \/ (exists id,
      Json.lookup (body mb) "method" = Some (JString "initialize") /\
      Json.at_key (body mb) "id" = Ok id /\
      out = framed (dump 4 (initialize_content id)) /\
      Json.lookup (initialize_content id) "id" = Some id)
  \/ (exists uri diagnostics,
      out = framed (dump 4 (publish_content uri diagnostics))).
Proof.
  intros E. unfold handle_message in E.
  apply bind_inv_ok in E. destruct E as ([method body'] & w1 & Es & E).
  inv_lift Es.
  destruct (Json.eq_string method "initialized") eqn:E1.
  { apply ret_inv in E. destruct E. discriminate. }
  destruct (Json.eq_string method "initialize") eqn:E2.
  { right. left.
    destruct (subscript_string _ _ _ _ _ Es E2) as (-> & -> & Hm).
    inv_bind E u w2 Eu. inv_bind E rid w3 Eid. inv_lift Eid.
    inv_bind E response w4 Er. inv_lift Er.
    apply ret_inv in E. destruct E as [[= ->] ->].
    rewrite make_response_initialize in Er. injection Er as <-.
    exists rid. repeat split; assumption || reflexivity. }
  destruct (Json.eq_string method "textDocument/didOpen") eqn:E3.
  { right. right.
    inv_bind E uri w2 Eu. inv_bind E text w3 Et.
    inv_bind E uri_string w4 Eus. inv_bind E text_string w5 Ets.
    inv_bind E u w6 Ew. inv_bind E diagnostics w7 Ed.
    inv_bind E response w8 Er. inv_lift Er.
    apply ret_inv in E. destruct E as [[= ->] ->].
    rewrite make_response_publish in Er. injection Er as <-.
    eauto. }
  destruct (Json.eq_string method "textDocument/didChange") eqn:E4.
  { right. right.
    inv_bind E uri w2 Eu. inv_bind E changes w3 Ec.
    inv_bind E first_change w4 Ef. inv_bind E change w5 Eh.
    inv_bind E uri_string w6 Eus. inv_bind E change_string w7 Ecs.
    inv_bind E u w8 Ew. inv_bind E a w9 Ea. inv_bind E diagnostics w10 Ed.
    inv_bind E response w11 Er. inv_lift Er.
    apply ret_inv in E. destruct E as [[= ->] ->].
    rewrite make_response_publish in Er. injection Er as <-.
    eauto. }
  left.
  inv_bind E a w2 Ea.
  destruct (WorkspaceOps.is_initialized (workspace a));
    cbn [negb andb] in E.
  2:{ inv_bind E response w3 Er. inv_lift Er.
    apply ret_inv in E. destruct E as [[= ->] ->].
    rewrite make_response_error in Er. injection Er as <-.
    exists (-32002), "Server not yet initialized.".
    repeat split; simpl; auto. }
  rewrite (subscript_count _ _ _ _ Es) in E. cbn [Z.eqb Pos.eqb] in E.
  inv_bind E name w3 En. inv_bind E response w4 Er. inv_lift Er.
  apply ret_inv in E. destruct E as [[= ->] ->].
  rewrite make_response_error in Er. injection Er as <-.
  exists (-32601), ("Method '" ++ name ++ "' not supported.").
  repeat split; simpl; auto.
Qed.

Lemma eq_string_false (v : json) (s : string) :
  v <> JString s -> Json.eq_string v s = false.
Proof.
  intros Hv. destruct (Json.eq_string v s) eqn:E; [|reflexivity].
  apply eq_string_true in E. contradiction.
Qed.

Lemma at_key_subscript (j v : json) (key : string) :
  Json.at_key j key = Ok v -> exists j', Json.subscript j key = Ok (v, j').
Proof.
  unfold Json.at_key. destruct (Json.subscript j key) as [[v0 j']| |];
    simpl; try discriminate.
  intros [= ->]. eauto.
Qed.

(** C1, amended.  While the workspace is uninitialized, a message whose
    method is none of ["initialize"], ["initialized"],
    ["textDocument/didOpen"] and ["textDocument/didChange"] (a message
    without a method included) is answered with the error -32002,
    "Server not yet initialized.", and nothing else happens. *)
Theorem uninitialized_requests_are_refused (mb : MessageBuffer) (w : World)
  (method : json) :
  Json.at_key (body mb) "method" = Ok method ->
  (forall s,
      In s ["initialize"; "initialized"; "textDocument/didOpen";
            "textDocument/didChange"] -> method <> JString s) ->
  WorkspaceOps.is_initialized (workspace (appstate w)) = false ->
  handle_message mb w =
  (Ok (Some (framed (dump 4 (error_content (-32002)
                               "Server not yet initialized.")))), w).
Proof.
  intros Em Hs Hi. apply at_key_subscript in Em. destruct Em as [body' Es].
  unfold handle_message.
  rewrite (bind_lift_ok _ _ _ _ Es).
  rewrite !eq_string_false by (apply Hs; simpl; auto).
  unfold get_appstate. cbn [bind]. rewrite Hi. cbn [negb andb].
  rewrite make_response_error. reflexivity.
Qed.

(** The dispatcher on a request that triggers a diagnostic pass: the
    pass runs in the world [w0], and its result is published. *)
Lemma handle_message_sync (mb : MessageBuffer) (w w0 : World) (uri : json)
  (uri_string text : string) :
  sync_request mb w uri uri_string text w0 ->
  handle_message mb w =
  bind (get_diagnostics uri_string text)
    (fun diagnostics =>
       bind (lift (make_response
                     (publish_diagnostics uri
                        (if Json.empty diagnostics then JArray []
                         else diagnostics))))
         (fun response => ret (Some response))) w0.
Proof.
  intros S. unfold handle_message.
  destruct S as [uri_string text Hm Hu Ht
                | uri_string change changes first_change Hm Hu Hc Hf Hh];
    apply lookup_object in Hm; destruct Hm as (m & Eb & Em);
    rewrite Eb in *;
    rewrite (bind_lift_ok _ _ _ _ (subscript_present _ _ _ Em));
    cbn [Json.eq_string String.eqb Ascii.eqb Bool.eqb].
  - rewrite (bind_lift_ok _ _ _ _ Hu), (bind_lift_ok _ _ _ _ Ht).
    reflexivity.
  - rewrite (bind_lift_ok _ _ _ _ Hu), (bind_lift_ok _ _ _ _ Hc),
      (bind_lift_ok _ _ _ _ Hf), (bind_lift_ok _ _ _ _ Hh).
    reflexivity.
Qed.

(** C7.  When the diagnostic pass of a ["textDocument/didOpen"] or
    ["textDocument/didChange"] request ends with no diagnostic (the
    translator then returns a null value), the notification that is
    published carries ["diagnostics": []], an array with no element; the
    field is neither null nor absent. *)
Theorem empty_pass_publishes_empty_array (mb : MessageBuffer) (w w0 w1 : World)
  (uri : json) (uri_string text : string) (d : json) :
  sync_request mb w uri uri_string text w0 ->
  get_diagnostics uri_string text w0 = (Ok d, w1) ->
  Json.empty d = true ->
  exists params,
    handle_message mb w =
    (Ok (Some (framed (dump 4 (JObject
         [("jsonrpc", JString "2.0");
          ("method", JString "textDocument/publishDiagnostics");
          ("params", params)])))), w1) /\
    Json.lookup params "uri" = Some uri /\
    Json.lookup params "diagnostics" = Some (JArray []).
Proof.
  intros S Ed He. exists (JObject [("diagnostics", JArray []); ("uri", uri)]).
  split; [|split; reflexivity].
  rewrite (handle_message_sync _ _ _ _ _ _ S).
  rewrite (bind_ok _ _ _ _ _ Ed). rewrite He.
  unfold bind, lift, ret. rewrite make_response_publish. reflexivity.
Qed.

Lemma find_language_unknown (name : string) :
  ~ In (extension name) known_extensions ->
  find_language name = Throw (invalid_argument "Unknown file extension!").
Proof.
  intros Hn. unfold find_language.
  repeat match goal with
    | |- context [String.eqb (extension name) ?e] =>
        destruct (String.eqb_spec (extension name) e) as [Ee|_];
        [exfalso; apply Hn; rewrite Ee; simpl; tauto|]
    end.
  reflexivity.
Qed.

(** C5, amended.  When a ["textDocument/didOpen"] or
    ["textDocument/didChange"] request names a document whose extension
    is none of the six known ones, [find_language] throws
    [std::invalid_argument("Unknown file extension!")] before the compiler
    is called.  [handle_message] does not catch it: the exception leaves
    the dispatcher, no response is produced, and what remains of the
    request is the update of the workspace. *)
Theorem unknown_extension_throws_before_compiling (mb : MessageBuffer)
  (w w0 : World) (uri : json) (uri_string text : string) :
  sync_request mb w uri uri_string text w0 ->
  ~ In (extension uri_string) known_extensions ->
  handle_message mb w =
    (Throw (invalid_argument "Unknown file extension!"), w0) /\
  shader_parses w0 = shader_parses w /\
  sent w0 = sent w.
Proof.
  intros S Hn. split.
  - rewrite (handle_message_sync _ _ _ _ _ _ S).
    unfold get_diagnostics, bind, lift.
    now rewrite (find_language_unknown _ Hn).
  - destruct S; split; reflexivity.
Qed.

(** X18.  The answer to ["initialize"]: in any state the workspace becomes
    initialized and the response carries the capabilities and the id of the
    request, null when the request has none. *)
Lemma initialize_is_answered (mb : MessageBuffer) (w : World)
  (m : list (string * json)) :
  body mb = JObject m ->
  Json.obj_find "method" m = Some (JString "initialize") ->
  handle_message mb w =
  (Ok (Some (framed (dump 4 (initialize_content
                               (match Json.obj_find "id" m with
                                | Some id => id
                                | None => JNull
                                end))))),
   snd (update_workspace (WorkspaceOps.set_initialized true) w)).
Proof.
  intros Eb Em. unfold handle_message. rewrite Eb.
  rewrite (bind_lift_ok _ _ _ _ (subscript_present _ _ _ Em)).
  cbn [Json.eq_string String.eqb Ascii.eqb Bool.eqb].
  unfold bind at 1. cbn [update_workspace].
  unfold Json.at_key, Json.subscript.
  destruct (Json.obj_find "id" m) as [id|]; cbn [rbind fst];
    unfold bind, lift, ret; rewrite make_response_initialize; reflexivity.
Qed.

(** X19.  Once the workspace is initialized, a method outside the routing
    table is answered with the error -32601, whose message names the
    method, and nothing else happens. *)
Lemma unknown_method_is_reported (mb : MessageBuffer) (w : World)
  (name : string) :
  Json.lookup (body mb) "method" = Some (JString name) ->
  (forall s,
      In s ["initialize"; "initialized"; "textDocument/didOpen";
            "textDocument/didChange"] -> name <> s) ->
  WorkspaceOps.is_initialized (workspace (appstate w)) = true ->
  handle_message mb w =
  (Ok (Some (framed (dump 4 (error_content (-32601)
                               ("Method '" ++ name ++ "' not supported."))))), w).
Proof.
  intros Hm Hs Hi. apply lookup_object in Hm. destruct Hm as (m & Eb & Em).
  unfold handle_message. rewrite Eb.
  rewrite (bind_lift_ok _ _ _ _ (subscript_present _ _ _ Em)).
  rewrite !eq_string_false
    by (intros [= E]; revert E; apply Hs; simpl; auto).
  unfold get_appstate. cbn [bind]. rewrite Hi. cbn [negb andb].
  rewrite (subscript_count _ _ _ _ (subscript_present _ _ _ Em)).
  cbn [Z.eqb Pos.eqb Json.get_string]. unfold bind, lift, ret.
  rewrite make_response_error. reflexivity.
Qed.

End Dispatcher.

Lemma initialized_produces_no_message_witness :
  let mb := request (Json.object [("method", JString "initialized")]) in
  let w := initial_world false false in
  @handle_message (Reference.fixed_log "") mb w = (Ok None, w) /\
  forall frame w',
    @handle_message (Reference.fixed_log "") mb w <> (Ok (Some frame), w').
Proof.
  intros mb w.
  apply (@initialized_produces_no_message (Reference.fixed_log "") mb w).
  reflexivity.
Defined.

(** ** The definitions at work *)

Lemma uninitialized_requests_are_refused_witness :
  let mb := request (Json.object [("id", JInt 1); ("method", JString "shutdown")]) in
  let w := initial_world false false in
  @handle_message (Reference.fixed_log "") mb w =
  (Ok (Some (framed (Reference.dump 4
                       (error_content (-32002) "Server not yet initialized.")))),
   w).
Proof.
  intros mb w.
  apply (@uninitialized_requests_are_refused (Reference.fixed_log "") mb w
           (JString "shutdown")).
  - reflexivity.
  - intros s Hs. simpl in Hs.
    destruct Hs as [<-|[<-|[<-|[<-|[]]]]]; discriminate.
  - reflexivity.
Defined.

(** C1, counterexample.  In an uninitialized workspace the notification
    ["initialized"] gets no answer at all, and a
    ["textDocument/didOpen"] is carried out and answered with a diagnostics
    notification: neither is refused with the error -32002. *)
Lemma premature_messages_are_not_all_refused :
  let w := initial_world false false in
  let C := Reference.fixed_log "" in
  let refusal :=
    Ok (Some (framed (Reference.dump 4
                        (error_content (-32002) "Server not yet initialized.")))) in
  WorkspaceOps.is_initialized (workspace (appstate w)) = false /\
  @handle_message C (request (Json.object [("method", JString "initialized")])) w
    = (Ok None, w) /\
  fst (@handle_message C (request (did_open "shader.vert" content)) w) =
    Ok (Some (framed (Reference.dump 4
                        (publish_content (JString "shader.vert") (JArray []))))) /\
  fst (@handle_message C (request (did_open "shader.vert" content)) w) <> refusal.
Proof.
  intros w C refusal.
  assert (E : fst (@handle_message C (request (did_open "shader.vert" content)) w) =
              Ok (Some (framed (Reference.dump 4
                        (publish_content (JString "shader.vert") (JArray []))))))
    by (vm_compute; reflexivity).
  repeat split; try reflexivity; try exact E.
  rewrite E. subst refusal. vm_compute. discriminate.
Qed.

(** C2.  A source of three lines whose compiler log names line 42 (line
    numbers past the end of the text come with a [#line] directive): the
    pass reads [content_lines[41]] outside the vector, which is undefined
    behaviour.  The entry is not skipped, and the entry after it, which is
    in range, is never reached. *)
Theorem line_outside_source_is_undefined :
  let source :=
    "#version 110" ++ NL ++ "#line 41" ++ NL ++ "int x = y;" in
  let log :=
    "ERROR: 0:42: 'y' : undeclared identifier" ++ NL
      ++ "WARNING: 0:1: '#version' : old version" ++ NL in
  List.length (split_string source NL) = 3%nat /\
  fst (@get_diagnostics (Reference.fixed_log log) "shader.vert" source
         (initial_world false false)) = Undefined.
Proof. vm_compute. split; reflexivity. Qed.

(** C3.  The message quotes [assign], which is not in the source line: the
    diagnostic goes from character -1 to character 4, where a span of the
    whole line would go from 0 to 31. *)
Theorem absent_identifier_span :
  let source := "void main() { int i; i = 1.5; }" in
  let message := "'assign' :  cannot convert from ' const float' to ' temp int'" in
  let log := "ERROR: 0:1: " ++ message ++ NL in
  String.index 0 "assign" source = None /\
  size source = 31 /\
  fst (@get_diagnostics (Reference.fixed_log log) "shader.vert" source
         (initial_world false false)) =
    Ok (JArray [diagnostic_value 1 0 (-1) 4 message]).
Proof. vm_compute. repeat split; reflexivity. Qed.

Lemma redefinition_line_gives_one_diagnostic_witness :
  let w := initial_world false false in
  nth_error shader_lines 6 = Some "vec2 positions[3] = vec2[](" /\
  String.index 0 "positions" "vec2 positions[3] = vec2[](" = Some 5%nat /\
  diagnose_line shader_lines (diagnostics_of [])
    "ERROR: 0:7: 'positions' : redefinition" w =
  (Ok (diagnostics_of
         ([] ++ [diagnostic_value 1 6 (Z.of_nat 5)
                   (Z.of_nat 5 + size "positions" - 1)
                   "'positions' : redefinition"])), w).
Proof.
  intros w. split; [reflexivity|]. split; [reflexivity|].
  apply (redefinition_line_gives_one_diagnostic shader_lines []
           "vec2 positions[3] = vec2[](" 5 w).
  - reflexivity.
  - reflexivity.
  - simpl. lia.
Defined.

(** C4, counterexample.  On the shader of the program and the log line
    [ERROR: 0:7: 'positions' : redefinition] the translator gives one
    diagnostic, from character 5 to character 13 of line 6, whose message
    is ['positions' : redefinition] and not [redefinition]. *)
Lemma redefinition_message_is_not_shortened :
  let log := "ERROR: 0:7: 'positions' : redefinition" ++ NL in
  fst (@get_diagnostics (Reference.fixed_log log) document content
         (initial_world false false)) =
    Ok (JArray [diagnostic_value 1 6 5 13 "'positions' : redefinition"]) /\
  diagnostic_value 1 6 5 13 "'positions' : redefinition" <>
    diagnostic_value 1 6 5 13 "redefinition".
Proof. split; [vm_compute; reflexivity | discriminate]. Qed.

Lemma unknown_extension_throws_before_compiling_witness :
  let mb := request (did_open "notes.txt" "void main() {}") in
  let w := initial_world false false in
  let w0 := snd (update_workspace
                   (WorkspaceOps.add_document "notes.txt" "void main() {}") w) in
  @handle_message (Reference.fixed_log "") mb w =
    (Throw (invalid_argument "Unknown file extension!"), w0) /\
  shader_parses w0 = shader_parses w /\
  sent w0 = sent w.
Proof.
  intros mb w w0.
  apply (@unknown_extension_throws_before_compiling (Reference.fixed_log "")
           mb w w0 (JString "notes.txt") "notes.txt" "void main() {}").
  - apply sync_open; reflexivity.
  - simpl. intros [E|[E|[E|[E|[E|[E|[]]]]]]]; discriminate.
Defined.

(** C5, counterexample.  A ["textDocument/didOpen"] for [notes.txt]
    followed by an ["initialize"] request: the exception thrown for the
    first leaves [handle_message] and [ev_handler], the run ends with it,
    and the second request, which is answered when it comes alone, gets no
    answer. *)
Lemma unknown_extension_ends_the_run :
  let C := Reference.fixed_log "" in
  let w := initial_world false false in
  let bad := request (did_open "notes.txt" "void main() {}") in
  let next := request (initialize_request 1) in
  let e := invalid_argument "Unknown file extension!" in
  fst (@handle_message C bad w) = Throw e /\
  fst (@ev_handler C bad w) = Throw e /\
  fst (@run_session C [bad; next] w) = Throw e /\
  sent (snd (@run_session C [bad; next] w)) = [] /\
  List.length (sent (snd (@run_session C [next] w))) = 1%nat.
Proof. vm_compute. repeat split; reflexivity. Qed.

Lemma severity_token_is_mapped_witness :
  let w := initial_world true false in
  exists diagnostic,
    diagnose_line ["void main() {}"] (diagnostics_of []) "INFO: 0:1: note" w =
      (Ok (diagnostics_of ([] ++ [diagnostic])), after_severity_note "INFO" w) /\
    Json.lookup diagnostic "severity" = Some (JInt (severity_number "INFO")) /\
    ("INFO" = "ERROR" -> severity_number "INFO" = 1) /\
    ("INFO" = "WARNING" -> severity_number "INFO" = 2) /\
    ("INFO" <> "ERROR" -> "INFO" <> "WARNING" ->
     severity_number "INFO" = -1 /\
     logfile_stream (appstate (after_severity_note "INFO" w)) =
       (logfile_stream (appstate w)
          ++ (if use_logfile (appstate w)
              then [("Error: Unknown severity '" ++ "INFO" ++ "'" ++ NL)%string]
              else []))%list).
Proof.
  intros w.
  apply (severity_token_is_mapped ["void main() {}"] [] "INFO: 0:1: note"
           "INFO: 0:1: note" "INFO" "1" "note" "void main() {}" 1 w).
  - reflexivity.
  - reflexivity.
  - reflexivity.
Defined.

(** C6, counterexample.  With the log file not in use, the line
    [INFO: 0:1: note] gives a diagnostic of severity -1 and no note is
    written anywhere. *)
Lemma unknown_severity_is_silent_without_log_file :
  let log := "INFO: 0:1: note" ++ NL in
  let w := initial_world false true in
  let r := @get_diagnostics (Reference.fixed_log log) "shader.vert"
             "void main() {}" w in
  Regex.regex_search "INFO: 0:1: note" re_diagnostic =
    ["INFO: 0:1: note"; "INFO"; "1"; "note"] /\
  fst r = Ok (JArray [diagnostic_value (-1) 0 0 14 "note"]) /\
  logfile_stream (appstate (snd r)) = [].
Proof. vm_compute. repeat split; reflexivity. Qed.

Lemma empty_pass_publishes_empty_array_witness :
  let C := Reference.fixed_log "" in
  let mb := request (did_open "shader.vert" content) in
  let w := initial_world false false in
  let w0 := snd (update_workspace
                   (WorkspaceOps.add_document "shader.vert" content) w) in
  let w1 := snd (@get_diagnostics C "shader.vert" content w0) in
  @get_diagnostics C "shader.vert" content w0 = (Ok JNull, w1) /\
  exists params,
    @handle_message C mb w =
    (Ok (Some (framed (Reference.dump 4 (JObject
         [("jsonrpc", JString "2.0");
          ("method", JString "textDocument/publishDiagnostics");
          ("params", params)])))), w1) /\
    Json.lookup params "uri" = Some (JString "shader.vert") /\
    Json.lookup params "diagnostics" = Some (JArray []).
Proof.
  intros C mb w w0 w1.
  assert (E : @get_diagnostics C "shader.vert" content w0 = (Ok JNull, w1))
    by reflexivity.
  split; [exact E|].
  apply (@empty_pass_publishes_empty_array C mb w w0 w1 (JString "shader.vert")
           "shader.vert" content JNull).
  - apply sync_open; reflexivity.
  - exact E.
  - reflexivity.
Defined.

Lemma error_responses_omit_id_witness :
  let C := Reference.fixed_log "" in
  let mb := request (Json.object [("id", JInt 5); ("method", JString "foo/bar")]) in
  let w := initial_world false false in
  let out := framed (Reference.dump 4
                       (error_content (-32002) "Server not yet initialized.")) in
  @handle_message C mb w = (Ok (Some out), w) /\
  Json.lookup (body mb) "id" = Some (JInt 5) /\
  ((exists code message,
       In code [-32002; -32601; -32700] /\
       out = framed (Reference.dump 4 (error_content code message)) /\
       Json.keys (error_content code message) = ["error"; "jsonrpc"] /\
       Json.lookup (error_content code message) "id" = None /\
       Json.lookup (error_content code message) "error" =
         Some (JObject [("code", JInt code); ("message", JString message)]))
   \/ (exists id,
       Json.lookup (body mb) "method" = Some (JString "initialize") /\
       Json.at_key (body mb) "id" = Ok id /\
       out = framed (Reference.dump 4 (initialize_content id)) /\
       Json.lookup (initialize_content id) "id" = Some id)
   \/ (exists uri diagnostics,
       out = framed (Reference.dump 4 (publish_content uri diagnostics)))).
Proof.
  intros C mb w out.
  assert (E : @handle_message C mb w = (Ok (Some out), w)) by reflexivity.
  split; [exact E|]. split; [reflexivity|].
  apply (@error_responses_omit_id C mb w w out E).
Defined.

(** * Further properties of the code *)

(** ** [find_language] *)

(** X1.  [find_language] returns a stage exactly when the extension of the
    name is the extension of that stage; the comparison is exact, so the
    six extensions are the only names accepted. *)
Theorem find_language_by_extension (name : string) (lang : EShLanguage) :
  find_language name = Ok lang <-> extension name = extension_of lang.
Proof.
  unfold find_language.
  destruct (String.eqb_spec (extension name) ".vert") as [E|N1].
  { rewrite E. split; [intros [= <-]; reflexivity|].
    destruct lang; simpl; intros [=]; reflexivity. }
  destruct (String.eqb_spec (extension name) ".tesc") as [E|N2].
  { rewrite E. split; [intros [= <-]; reflexivity|].
    destruct lang; simpl; intros [=]; reflexivity. }
  destruct (String.eqb_spec (extension name) ".tese") as [E|N3].
  { rewrite E. split; [intros [= <-]; reflexivity|].
    destruct lang; simpl; intros [=]; reflexivity. }
  destruct (String.eqb_spec (extension name) ".geom") as [E|N4].
  { rewrite E. split; [intros [= <-]; reflexivity|].
    destruct lang; simpl; intros [=]; reflexivity. }
  destruct (String.eqb_spec (extension name) ".frag") as [E|N5].
  { rewrite E. split; [intros [= <-]; reflexivity|].
    destruct lang; simpl; intros [=]; reflexivity. }
  destruct (String.eqb_spec (extension name) ".comp") as [E|N6].
  { rewrite E. split; [intros [= <-]; reflexivity|].
    destruct lang; simpl; intros [=]; reflexivity. }
  split; [discriminate|]. destruct lang; simpl; intros E; contradiction.
Qed.

(** ** [make_response] *)

Lemma obj_find_set_same (key : string) (v : json) (m : list (string * json)) :
  Json.obj_find key (Json.obj_set key v m) = Some v.
Proof.
  induction m as [|[k w0] m IH]; simpl.
  - now rewrite String.eqb_refl.
  - destruct (String.compare key k) eqn:Ec; simpl.
    + now rewrite String.eqb_refl.
    + now rewrite String.eqb_refl.
    + destruct (String.eqb_spec key k) as [->|_]; [|exact IH].
      pose proof (String.compare_antisym k k) as Ha.
      rewrite Ec in Ha. discriminate.
Qed.

Lemma obj_find_set_other (key other : string) (v : json)
  (m : list (string * json)) :
  other <> key ->
  Json.obj_find other (Json.obj_set key v m) = Json.obj_find other m.
Proof.
  intros Hn. induction m as [|[k w0] m IH]; simpl.
  - destruct (String.eqb_spec other key); [contradiction | reflexivity].
  - destruct (String.compare key k) eqn:Ec; simpl.
    + apply String.compare_eq_iff in Ec. subst k.
      destruct (String.eqb_spec other key); [contradiction | reflexivity].
    + destruct (String.eqb_spec other key); [contradiction | reflexivity].
    + destruct (String.eqb_spec other k); [reflexivity | exact IH].
Qed.

(** X2.  [make_response] sends the payload with the member ["jsonrpc"] set
    to ["2.0"], also when the payload came with another value for it, and
    with every other member as it was. *)
Theorem make_response_tags_the_payload `{Collaborators}
  (m : list (string * json)) :
  exists content,
    make_response (JObject m) = Ok (framed (dump 4 (JObject content))) /\
    Json.obj_find "jsonrpc" content = Some (JString "2.0") /\
    forall key, key <> "jsonrpc" -> Json.obj_find key content = Json.obj_find key m.
Proof.
  exists (Json.obj_set "jsonrpc" (JString "2.0") m). split; [|split].
  - apply make_response_object.
  - apply obj_find_set_same.
  - intros key Hk. now apply obj_find_set_other.
Qed.

(** ** [FindSymbolTraverser] *)

Lemma find_last (A : Type) (p : A -> bool) (l : list A) (x : A) :
  List.find p (l ++ [x]) =
  match List.find p l with
  | Some y => Some y
  | None => if p x then Some x else None
  end.
Proof.
  induction l as [|y l IH]; simpl; [reflexivity|].
  destruct (p y); [reflexivity | exact IH].
Qed.

Lemma traverse_symbol (walk : list FindSymbolTraverser.node)
  (t : FindSymbolTraverser.traverser) :
  let t' := fst (FindSymbolTraverser.traverse walk t) in
  FindSymbolTraverser.line t' = FindSymbolTraverser.line t /\
  FindSymbolTraverser.column t' = FindSymbolTraverser.column t /\
  FindSymbolTraverser.symbol t' =
    match List.find (FindSymbolTraverser.covers t)
            (List.rev (FindSymbolTraverser.symbols walk)) with
    | Some interm => Some interm
    | None => FindSymbolTraverser.symbol t
    end.
Proof.
  revert t. induction walk as [|n walk IH]; intros t; [simpl; auto|].
  assert (Hc : forall t1 : FindSymbolTraverser.traverser,
             FindSymbolTraverser.line t1 = FindSymbolTraverser.line t ->
             FindSymbolTraverser.column t1 = FindSymbolTraverser.column t ->
             FindSymbolTraverser.covers t1 = FindSymbolTraverser.covers t).
  { intros t1 Hl Hcol. unfold FindSymbolTraverser.covers. now rewrite Hl, Hcol. }
  cbn [FindSymbolTraverser.traverse].
  destruct (FindSymbolTraverser.visit t n) as [t1 out1] eqn:Ev.
  specialize (IH t1).
  destruct (FindSymbolTraverser.traverse walk t1) as [t2 out2].
  cbn [fst] in *. destruct IH as (Hl & Hcol & Hs).
  destruct n; cbn [FindSymbolTraverser.visit] in Ev;
    try (injection Ev as <- _; cbn [FindSymbolTraverser.symbols];
         repeat split; assumption).
  unfold FindSymbolTraverser.visitSymbol in Ev. injection Ev as <- _.
  cbn [FindSymbolTraverser.symbols List.rev]. rewrite find_last.
  destruct (FindSymbolTraverser.covers t interm) eqn:Ecov.
  - rewrite (Hc (FindSymbolTraverser.mkTraverser (FindSymbolTraverser.line t)
                   (FindSymbolTraverser.column t) (Some interm))
               eq_refl eq_refl) in Hs.
    cbn [FindSymbolTraverser.line FindSymbolTraverser.column
         FindSymbolTraverser.symbol] in *.
    split; [assumption|]. split; [assumption|]. rewrite Hs.
    destruct (List.find (FindSymbolTraverser.covers t)
                (List.rev (FindSymbolTraverser.symbols walk))); reflexivity.
  - split; [assumption|]. split; [assumption|]. rewrite Hs.
    destruct (List.find (FindSymbolTraverser.covers t)
                (List.rev (FindSymbolTraverser.symbols walk))); reflexivity.
Qed.

(** X3.  After a walk, [getSymbol] of a fresh traverser is the last symbol
    visited that covers the position, and nothing ([nullptr]) when no symbol
    of the walk covers it; the nodes that are not symbols play no part. *)
Theorem traverse_keeps_the_last_cover (walk : list FindSymbolTraverser.node)
  (line column : Z) :
  let t := FindSymbolTraverser.create line column in
  FindSymbolTraverser.getSymbol (fst (FindSymbolTraverser.traverse walk t)) =
  List.find (FindSymbolTraverser.covers t)
    (List.rev (FindSymbolTraverser.symbols walk)).
Proof.
  intros t. destruct (traverse_symbol walk t) as (_ & _ & Hs).
  unfold FindSymbolTraverser.getSymbol. rewrite Hs.
  destruct (List.find (FindSymbolTraverser.covers t)
              (List.rev (FindSymbolTraverser.symbols walk))); reflexivity.
Qed.

(** X4.  For a position and a symbol location that are not negative, a
    symbol covers the position when it is on the same line and the column
    is between the column of the symbol and that column plus the length of
    the name, both ends included: the column just after the last character
    of the name is covered too. *)
Theorem covers_in_plain_terms (t : FindSymbolTraverser.traverser)
  (interm : FindSymbolTraverser.TIntermSymbol) :
  let start := FindSymbolTraverser.loc_column (FindSymbolTraverser.getLoc interm) in
  0 <= start < 2 ^ 31 ->
  0 <= FindSymbolTraverser.column t < 2 ^ 31 ->
  size (FindSymbolTraverser.getName interm) < 2 ^ 31 ->
  (FindSymbolTraverser.covers t interm = true <->
   FindSymbolTraverser.line t =
     FindSymbolTraverser.loc_line (FindSymbolTraverser.getLoc interm) /\
   start <= FindSymbolTraverser.column t
         <= start + size (FindSymbolTraverser.getName interm)).
Proof.
  intros start Hs Hc Hn. unfold FindSymbolTraverser.covers. fold start.
  assert (H0 : 0 <= size (FindSymbolTraverser.getName interm))
    by (unfold size; lia).
  unfold wrap_size_t.
  rewrite (Z.mod_small start) by lia.
  rewrite (Z.mod_small (FindSymbolTraverser.column t)) by lia.
  rewrite (Z.mod_small (start + size (FindSymbolTraverser.getName interm)))
    by lia.
  destruct (Z.eqb_spec (FindSymbolTraverser.line t)
              (FindSymbolTraverser.loc_line (FindSymbolTraverser.getLoc interm)))
    as [El|Nl].
  - rewrite andb_true_iff, Z.leb_le, Z.leb_le. tauto.
  - split; [discriminate | tauto].
Qed.

(** ** The two patterns *)

Lemma length_append (a b : string) :
  String.length (a ++ b) = (String.length a + String.length b)%nat.
Proof. induction a as [|x a IH]; simpl; [reflexivity | now rewrite IH]. Qed.

Lemma consumed_prefix (a b : string) : Regex.consumed (a ++ b) b = a.
Proof.
  unfold Regex.consumed. rewrite length_append.
  replace (String.length a + String.length b - String.length b)%nat
    with (String.length a) by lia.
  induction a as [|x a IH]; simpl.
  - destruct b; reflexivity.
  - now rewrite IH.
Qed.

Lemma consumed_all (a : string) : Regex.consumed a "" = a.
Proof.
  rewrite <- (append_empty_r a) at 1. apply consumed_prefix.
Qed.

(** A star runs over the characters it accepts when what follows matches. *)
Lemma star_over {R : Type} (a : Regex.atom) (pre rest : string)
  (k : string -> option R) (r : R) :
  all_chars (Regex.accepts a) pre = true ->
  Regex.star a rest k = Some r ->
  Regex.star a (pre ++ rest) k = Some r.
Proof.
  intros Hp Hr. induction pre as [|c pre IH]; [exact Hr|].
  simpl in Hp. apply andb_true_iff in Hp. destruct Hp as [Hc Hp].
  change (String c pre ++ rest) with (String c (pre ++ rest)).
  cbn [Regex.star]. rewrite Hc, (IH Hp). reflexivity.
Qed.

(** A star fails when what follows fails wherever the star may stop. *)
Lemma star_none {R : Type} (a : Regex.atom) (u : string)
  (k : string -> option R) :
  (forall q t, u = q ++ t -> k t = None) ->
  Regex.star a u k = None.
Proof.
  induction u as [|c u IH]; intros Hk.
  - simpl. apply (Hk "" ""). reflexivity.
  - cbn [Regex.star].
    assert (Hu : Regex.star a u k = None).
    { apply IH. intros q t E. apply (Hk (String c q) t). simpl. now rewrite E. }
    rewrite Hu. rewrite (Hk "" (String c u) eq_refl).
    destruct (Regex.accepts a c); reflexivity.
Qed.

Lemma run_lit {R : Type} (p : string) (r : Regex.regex) (t : string)
  (caps : list string) (k : string -> list string -> option R) :
  Regex.run (Regex.lit p r) (p ++ t) caps k = Regex.run r t caps k.
Proof.
  induction p as [|c p IH]; [reflexivity|].
  change (String c p ++ t) with (String c (p ++ t)).
  cbn [Regex.lit Regex.run Regex.accepts]. now rewrite Ascii.eqb_refl.
Qed.

Lemma run_lit_fail {R : Type} (p : string) (r : Regex.regex) (t : string)
  (caps : list string) (k : string -> list string -> option R) :
  strip_prefix p t = None ->
  Regex.run (Regex.lit p r) t caps k = None.
Proof.
  revert t. induction p as [|c p IH]; intros t Hs; [discriminate|].
  cbn [Regex.lit Regex.run Regex.accepts]. destruct t as [|b t]; [reflexivity|].
  simpl in Hs. rewrite Ascii.eqb_sym.
  destruct (Ascii.eqb c b); [now apply IH | reflexivity].
Qed.

Lemma prefix_false_strip (p t : string) :
  prefix p t = false -> strip_prefix p t = None.
Proof.
  revert t. induction p as [|c p IH]; intros t; [destruct t; discriminate|].
  destruct t as [|b t]; [reflexivity|]. simpl.
  destruct (ascii_dec c b) as [->|Hn].
  - rewrite Ascii.eqb_refl. apply IH.
  - intros _. apply Ascii.eqb_neq in Hn. now rewrite Hn.
Qed.

Lemma index_none_here (p u : string) :
  String.index 0 p u = None -> prefix p u = false.
Proof.
  destruct u as [|b u]; simpl.
  - destruct p; intros E; [discriminate E | reflexivity].
  - match goal with
    | |- (if ?c then _ else _) = None -> _ =>
        destruct c; intros E; [discriminate E | reflexivity]
    end.
Qed.

Lemma index_none_tail (p : string) (b : ascii) (u : string) :
  String.index 0 p (String b u) = None -> String.index 0 p u = None.
Proof.
  simpl.
  match goal with
  | |- (if ?c then _ else _) = None -> _ => destruct c; intros E; [discriminate E|]
  end.
  destruct (String.index 0 p u); [discriminate E | reflexivity].
Qed.

(** A text in which [p] does not occur has no suffix that starts with
    [p]. *)
Lemma index_none_strip (p u : string) :
  String.index 0 p u = None ->
  forall q t, u = q ++ t -> strip_prefix p t = None.
Proof.
  intros Hi q. revert u Hi. induction q as [|c q IH]; intros u Hi t E.
  - simpl in E. subst t. apply prefix_false_strip. now apply index_none_here.
  - simpl in E. subst u. apply (IH (q ++ t)); [|reflexivity].
    now apply index_none_tail in Hi.
Qed.

Lemma match_here_search (r : Regex.regex) (s : string) (m : list string) :
  Regex.match_here r s = Some m -> Regex.regex_search s r = m.
Proof. intros E. destruct s; simpl; now rewrite E. Qed.

(** The continuation of the first group of [re_diagnostic] fails on a text
    that does not start with the marker [: 0:]. *)
Lemma search_without_marker (s : string) :
  String.index 0 ": 0:" s = None ->
  Regex.regex_search s re_diagnostic = [].
Proof.
  assert (G : forall u, String.index 0 ": 0:" u = None ->
                        Regex.match_here re_diagnostic u = None).
  { intros u Hu. unfold Regex.match_here, re_diagnostic.
    cbn [Regex.run]. apply star_none. intros q t E.
    apply run_lit_fail. apply (index_none_strip _ _ Hu q t E). }
  induction s as [|c s IH]; intros Hi.
  - reflexivity.
  - cbn [Regex.regex_search]. rewrite (G _ Hi).
    apply IH. now apply index_none_tail in Hi.
Qed.

Lemma digit_is_not_space (d : ascii) :
  is_digit d = true -> Ascii.eqb " " d = false.
Proof.
  intros Hd. destruct (Ascii.eqb_spec " " d) as [<-|]; [discriminate|reflexivity].
Qed.

(** The decomposition of a line [SEVERITY: 0:LINE: MESSAGE] whose fields
    hold no line terminator and whose message does not hold the marker
    [: 0:] again. *)
Lemma search_diagnostic_line (severity digits message : string) :
  one_line severity = true ->
  all_chars is_digit digits = true ->
  one_line message = true ->
  String.index 0 ": 0:" (digits ++ ": " ++ message) = None ->
  Regex.regex_search (severity ++ ": 0:" ++ digits ++ ": " ++ message)
    re_diagnostic =
  [severity ++ ": 0:" ++ digits ++ ": " ++ message; severity; digits; message].
Proof.
  intros Hs Hd Hm Hi. apply match_here_search.
  unfold Regex.match_here, re_diagnostic. cbn [Regex.run].
  apply star_over; [exact Hs|].
  change (": 0:" ++ digits ++ ": " ++ message)
    with (String ":" (" 0:" ++ digits ++ ": " ++ message)).
  cbn [Regex.star Regex.accepts]. cbn [Ascii.eqb Bool.eqb negb andb LF CR ascii_of_nat ascii_of_pos].
  rewrite star_none.
  2:{ intros q t E. apply run_lit_fail.
      destruct q as [|c0 q]; [simpl in E; subst t; reflexivity|].
      destruct q as [|c1 q]; [simpl in E; injection E as _ <-; reflexivity|].
      destruct q as [|c2 q].
      { simpl in E. injection E as _ _ <-.
        destruct digits as [|d digits]; [reflexivity|].
        simpl in Hd. apply andb_true_iff in Hd. destruct Hd as [Hd _].
        cbn [strip_prefix append]. rewrite (digit_is_not_space d Hd).
        reflexivity. }
      simpl in E. injection E as _ _ _ E.
      apply (index_none_strip _ _ Hi q t E). }
  change (String ":" (" 0:" ++ digits ++ ": " ++ message))
    with (": 0:" ++ digits ++ ": " ++ message).
  rewrite run_lit. cbn [Regex.run].
  apply star_over; [exact Hd|].
  change (": " ++ message) with (String ":" (String " " message)) at 1.
  cbn [Regex.star Regex.accepts]. change (is_digit ":") with false. cbv iota.
  change (String ":" (String " " message)) with (": " ++ message).
  rewrite run_lit. cbn [Regex.run].
  rewrite <- (append_empty_r message) at 1.
  apply star_over; [exact Hm|].
  cbn [Regex.star]. rewrite ?consumed_prefix, ?consumed_all, ?append_empty_r.
  reflexivity.
Qed.

(** ** One turn of the translator on a well-formed line *)

(** X5.  A log line [SEVERITY: 0:LINE: MESSAGE] whose severity and message
    hold no line terminator and whose message does not hold [: 0:] again is
    split into exactly these three fields; when LINE reads as [n] and
    designates a line of the source, the loop pushes one diagnostic with the
    severity number of SEVERITY, the line [n - 1], the span computed from
    the trimmed message and that line, and the trimmed message. *)
Theorem well_formed_line_is_translated (content_lines : list string)
  (l : list json) (severity digits message source_line : string) (n : Z)
  (w : World) :
  one_line severity = true ->
  all_chars is_digit digits = true ->
  one_line message = true ->
  String.index 0 ": 0:" (digits ++ ": " ++ message) = None ->
  stoi digits = Ok n ->
  vector_at content_lines (n - 1) = Ok source_line ->
  let error_line := severity ++ ": 0:" ++ digits ++ ": " ++ message in
  Regex.regex_search error_line re_diagnostic =
    [error_line; severity; digits; message] /\
  diagnose_line content_lines (diagnostics_of l) error_line w =
    (Ok (diagnostics_of
           (l ++ [diagnostic_value (severity_number severity) (n - 1)
                    (fst (character_span (trim message " ") source_line))
                    (snd (character_span (trim message " ") source_line))
                    (trim message " ")])),
     after_severity_note severity w).
Proof.
  intros Hs Hd Hm Hi Hn Hv error_line.
  pose proof (search_diagnostic_line severity digits message Hs Hd Hm Hi) as Hre.
  split; [exact Hre|].
  apply (diagnose_line_match _ _ _ _ _ _ _ _ _ _ Hre Hn Hv).
Qed.

Lemma diagnose_line_no_match (content_lines : list string) (diagnostics : json)
  (error_line : string) (w : World) :
  Regex.regex_search error_line re_diagnostic = [] ->
  diagnose_line content_lines diagnostics error_line w = (Ok diagnostics, w).
Proof. intros E. unfold diagnose_line. rewrite E. reflexivity. Qed.

Lemma for_each_no_match (content_lines error_lines : list string)
  (diagnostics : json) (w : World) :
  Forall (fun error_line => String.index 0 ": 0:" error_line = None) error_lines ->
  for_each error_lines (diagnose_line content_lines) diagnostics w =
  (Ok diagnostics, w).
Proof.
  induction 1 as [|error_line error_lines Hl _ IH]; [reflexivity|].
  cbn [for_each]. unfold bind at 1.
  rewrite (diagnose_line_no_match _ _ _ _ (search_without_marker _ Hl)).
  exact IH.
Qed.

(** X6.  A log none of whose lines holds the text [: 0:] (banners,
    summaries, an empty log) gives no diagnostic: the pass returns the null
    value, for any source text. *)
Theorem log_without_marker_gives_null `{Collaborators} (uri text : string)
  (lang : EShLanguage) (w : World) :
  find_language uri = Ok lang ->
  Forall (fun error_line => String.index 0 ": 0:" error_line = None)
    (split_string (info_log lang text) NL) ->
  fst (get_diagnostics uri text w) = Ok JNull.
Proof.
  intros Hl Hf. unfold get_diagnostics, bind, lift, shader_parse.
  rewrite Hl. unfold get_appstate. cbn [appstate].
  unfold when.
  destruct (use_logfile (appstate w) && verbose (appstate w));
    unfold print_log, ret; rewrite (for_each_no_match _ _ _ _ Hf); reflexivity.
Qed.

Lemma search_without_quote (message : string) :
  mem_char "'" message = false ->
  Regex.regex_search message re_identifier = [].
Proof.
  induction message as [|c message IH]; intros Hq; [reflexivity|].
  cbn [mem_char] in Hq. apply orb_false_iff in Hq. destruct Hq as [Hc Hq].
  cbn [Regex.regex_search]. unfold Regex.match_here, re_identifier.
  cbn [Regex.lit Regex.run Regex.accepts]. rewrite Ascii.eqb_sym, Hc.
  apply IH. exact Hq.
Qed.

(** X7.  A message without a quote character cannot match the pattern of
    the quoted identifier, and its diagnostic spans the whole source line:
    from character 0 to the length of the line. *)
Theorem message_without_quote_spans_the_line (message source_line : string) :
  mem_char "'" message = false ->
  size source_line < 2 ^ 31 ->
  character_span message source_line = (0, size source_line).
Proof.
  intros Hq Hs. unfold character_span.
  rewrite (search_without_quote _ Hq). cbn [List.length Nat.eqb].
  rewrite to_int_small; [reflexivity|]. unfold size in *. lia.
Qed.

(** ** The value returned by the translator *)








(** ** What a call leaves in place

    The functions are built from six operations on the world: reading the
    application state, writing a note to the log file, updating the
    workspace, calling the compiler, sending a reply.  A relation that these
    operations respect is respected by the whole program.  A note is only
    ever written behind a test of [use_logfile], so the relation need only
    allow notes while the log file is in use. *)

Section Effects.

Context `{Collaborators}.

Variable R : World -> World -> Prop.

Hypothesis R_refl : forall w, R w w.
Hypothesis R_trans : forall w1 w2 w3, R w1 w2 -> R w2 w3 -> R w1 w3.
Hypothesis R_logging : forall w w', R w w' -> same_logging w w'.
Hypothesis R_print :
  forall text w, use_logfile (appstate w) = true -> R w (snd (print_log text w)).
Hypothesis R_initialize :
  forall w, R w (snd (update_workspace (WorkspaceOps.set_initialized true) w)).
Hypothesis R_add :
  forall uri text w,
    R w (snd (update_workspace (WorkspaceOps.add_document uri text) w)).
Hypothesis R_change :
  forall uri text w,
    R w (snd (update_workspace (WorkspaceOps.change_document uri text) w)).
Hypothesis R_parse :
  forall lang source w, R w (snd (shader_parse lang source w)).
Hypothesis R_send : forall reply w, R w (snd (send_reply reply w)).

Lemma R_bind {A B} (c : M A) (f : A -> M B) (w : World) :
  R w (snd (c w)) ->
  (forall a w1, c w = (Ok a, w1) -> R w w1 -> R w1 (snd (f a w1))) ->
  R w (snd (bind c f w)).
Proof.
  intros Hc Hf. unfold bind.
  destruct (c w) as [[a|e|] w1] eqn:E; cbn [snd] in *; try exact Hc.
  apply (R_trans _ w1); [exact Hc|]. now apply Hf.
Qed.

Lemma R_bind_lift {A B} (r : result A) (f : A -> M B) (w : World) :
  (forall a, r = Ok a -> R w (snd (f a w))) ->
  R w (snd (bind (lift r) f w)).
Proof.
  intros Hf. unfold bind, lift.
  destruct r as [a|e|]; cbn [snd]; try apply R_refl. now apply Hf.
Qed.

Lemma R_bind_get {B} (f : AppState -> M B) (w : World) :
  R w (snd (f (appstate w) w)) -> R w (snd (bind get_appstate f w)).
Proof. intros Hf. exact Hf. Qed.

Lemma R_logging_on (w w' : World) :
  R w w' -> use_logfile (appstate w) = true -> use_logfile (appstate w') = true.
Proof. intros Hr Hw. apply R_logging in Hr. unfold same_logging in Hr. congruence. Qed.

Lemma R_when_print (b : bool) (text : string) (w : World) :
  (b = true -> use_logfile (appstate w) = true) ->
  R w (snd (when b (print_log text) w)).
Proof.
  intros Hb. unfold when. destruct b; [|apply R_refl].
  apply R_print. now apply Hb.
Qed.

Lemma diagnose_line_R (content_lines : list string) (diagnostics : json)
  (error_line : string) (w : World) :
  R w (snd (diagnose_line content_lines diagnostics error_line w)).
Proof.
  unfold diagnose_line.
  destruct (List.length (Regex.regex_search error_line re_diagnostic) =? 4)%nat;
    [|apply R_refl].
  apply R_bind_get. apply R_bind.
  - apply R_when_print. intros Hb. apply andb_true_iff in Hb. tauto.
  - intros _ w1 _ _. apply R_bind_lift. intros n _.
    apply R_bind_lift. intros source_line _.
    destruct (character_span _ source_line). apply R_refl.
Qed.

Lemma for_each_diagnose_R (content_lines error_lines : list string)
  (diagnostics : json) (w : World) :
  R w (snd (for_each error_lines (diagnose_line content_lines) diagnostics w)).
Proof.
  revert diagnostics w.
  induction error_lines as [|error_line error_lines IH]; intros diagnostics w.
  - apply R_refl.
  - cbn [for_each]. apply R_bind; [apply diagnose_line_R|].
    intros d w1 _ _. apply IH.
Qed.

Lemma get_diagnostics_R (uri text : string) (w : World) :
  R w (snd (get_diagnostics uri text w)).
Proof.
  unfold get_diagnostics. apply R_bind_lift. intros lang _.
  apply R_bind; [apply R_parse|]. intros debug_log w1 _ _.
  apply R_bind_get. apply R_bind.
  - apply R_when_print. intros Hb. apply andb_true_iff in Hb. tauto.
  - intros _ w2 _ H12. apply R_bind; [apply for_each_diagnose_R|].
    intros d w3 _ H23. apply R_bind; [|intros; apply R_refl].
    apply R_when_print. intros Hb. apply andb_true_iff in Hb.
    apply (R_logging_on w2 w3 H23). apply (R_logging_on w1 w2 H12). tauto.
Qed.

Lemma handle_message_R (mb : MessageBuffer) (w : World) :
  R w (snd (handle_message mb w)).
Proof.
  unfold handle_message. apply R_bind_lift. intros [method body'] _.
  destruct (Json.eq_string method "initialized"); [apply R_refl|].
  destruct (Json.eq_string method "initialize").
  { apply R_bind; [apply R_initialize|]. intros _ w1 _ _.
    apply R_bind_lift. intros rid _. apply R_bind_lift. intros response _.
    apply R_refl. }
  destruct (Json.eq_string method "textDocument/didOpen").
  { apply R_bind_lift. intros uri _. apply R_bind_lift. intros text _.
    apply R_bind_lift. intros uri_string _. apply R_bind_lift. intros text_string _.
    apply R_bind; [apply R_add|]. intros _ w1 _ _.
    apply R_bind; [apply get_diagnostics_R|]. intros d w2 _ _.
    apply R_bind_lift. intros response _. apply R_refl. }
  destruct (Json.eq_string method "textDocument/didChange").
  { apply R_bind_lift. intros uri _. apply R_bind_lift. intros changes _.
    apply R_bind_lift. intros first_change _. apply R_bind_lift. intros change _.
    apply R_bind_lift. intros uri_string _. apply R_bind_lift. intros change_string _.
    apply R_bind; [apply R_change|]. intros _ w1 _ _.
    apply R_bind_get.
    apply R_bind; [apply get_diagnostics_R|]. intros d w2 _ _.
    apply R_bind_lift. intros response _. apply R_refl. }
  apply R_bind_get.
  destruct (negb false && negb (WorkspaceOps.is_initialized (workspace (appstate w)))).
  { apply R_bind_lift. intros response _. apply R_refl. }
  destruct (Json.count body' "method" =? 1).
  - apply R_bind_lift. intros name _. apply R_bind_lift. intros response _.
    apply R_refl.
  - apply R_bind_lift. intros response _. apply R_refl.
Qed.

Lemma print_headers_R (hs : list (string * string)) (w : World) :
  use_logfile (appstate w) = true ->
  R w (snd (for_each hs
              (fun (_ : unit) elem => print_log (fst elem ++ ": " ++ snd elem ++ NL))
              tt w)).
Proof.
  revert w. induction hs as [|h hs IH]; intros w Hw; [apply R_refl|].
  cbn [for_each]. apply R_bind; [now apply R_print|].
  intros [] w1 _ H1. apply IH. apply (R_logging_on w w1 H1 Hw).
Qed.

Lemma log_request_R (mb : MessageBuffer) (w : World) :
  R w (snd (log_request mb (appstate w) w)).
Proof.
  unfold log_request. destruct (use_logfile (appstate w)) eqn:Hw; [|apply R_refl].
  apply R_bind_lift. intros [method body'] _.
  apply R_bind_lift. intros name _.
  apply R_bind; [now apply R_print|]. intros _ w1 _ H1.
  pose proof (R_logging_on w w1 H1 Hw) as Hw1.
  unfold when. destruct (verbose (appstate w)); [|apply R_refl].
  apply R_bind; [now apply R_print|]. intros _ w2 _ H2.
  pose proof (R_logging_on w1 w2 H2 Hw1) as Hw2.
  apply R_bind; [now apply print_headers_R|]. intros _ w3 _ H3.
  pose proof (R_logging_on w2 w3 H3 Hw2) as Hw3.
  apply R_bind; [now apply R_print|]. intros _ w4 _ H4.
  pose proof (R_logging_on w3 w4 H4 Hw3) as Hw4.
  now apply R_print.
Qed.

Lemma ev_handler_parts (mb : MessageBuffer) :
  ev_handler mb =
  if message_completed mb then
    bind get_appstate
      (fun a =>
         bind (log_request mb a)
           (fun _ => bind (handle_message mb) (fun message => relay_response a message)))
  else ret tt.
Proof. reflexivity. Qed.

Lemma relay_response_R (a : AppState) (message : option string) (w : World) :
  use_logfile (appstate w) = use_logfile a ->
  R w (snd (relay_response a message w)).
Proof.
  intros Ha. unfold relay_response. destruct message as [response|]; [|apply R_refl].
  apply R_bind; [apply R_send|]. intros _ w1 _ H1.
  apply R_when_print. intros Hb. apply andb_true_iff in Hb.
  apply (R_logging_on w w1 H1). rewrite Ha. tauto.
Qed.

Lemma ev_handler_R (mb : MessageBuffer) (w : World) :
  R w (snd (ev_handler mb w)).
Proof.
  rewrite ev_handler_parts. destruct (message_completed mb); [|apply R_refl].
  apply R_bind_get. apply R_bind; [apply log_request_R|]. intros _ w1 _ H1.
  apply R_bind; [apply handle_message_R|]. intros message w2 _ H2.
  apply relay_response_R.
  apply R_logging in H1, H2. unfold same_logging in *. congruence.
Qed.

Lemma run_session_R (requests : list MessageBuffer) (w : World) :
  R w (snd (run_session requests w)).
Proof.
  revert w. induction requests as [|mb requests IH]; intros w; [apply R_refl|].
  cbn [run_session]. apply R_bind; [apply ev_handler_R|]. intros _ w1 _ _.
  apply IH.
Qed.

End Effects.

Lemma add_document_initialized (uri text : string) (ws : Workspace) :
  ws_initialized (WorkspaceOps.add_document uri text ws) = ws_initialized ws.
Proof.
  unfold WorkspaceOps.add_document.
  destruct (WorkspaceOps.find_document uri (ws_documents ws)); reflexivity.
Qed.

Ltac effect_fact :=
  unfold stays_initialized, quiet_without_log_file, sends_nothing,
    compiles_nothing, same_logging, initialized_in, WorkspaceOps.is_initialized;
  intros;
  repeat match goal with
    | Hc : _ /\ _ |- _ => destruct Hc
    end;
  cbn [snd print_log update_workspace shader_parse send_reply appstate
       workspace use_logfile logfile_stream sent shader_parses verbose
       ws_initialized WorkspaceOps.set_initialized
       WorkspaceOps.change_document] in *;
  rewrite ?add_document_initialized;
  repeat split; intros; try reflexivity; try congruence; auto.

Lemma ev_handler_keeps_initialized `{Collaborators} (mb : MessageBuffer)
  (w : World) :
  stays_initialized w (snd (ev_handler mb w)).
Proof. apply ev_handler_R; try solve [effect_fact]. Qed.

(** X10.  The initialized flag is never cleared: when [ev_handler] is
    called on an initialized workspace, whatever the message and however
    the call ends (an answer, silence, an exception, an undefined access),
    the workspace is initialized afterwards. *)
Theorem ev_handler_stays_initialized `{Collaborators} (mb : MessageBuffer)
  (w : World) :
  initialized_in w = true ->
  initialized_in (snd (ev_handler mb w)) = true.
Proof.
  intros Hw. destruct (ev_handler_keeps_initialized mb w) as [_ G]. now apply G.
Qed.

(** The same over the requests of a session. *)
Lemma session_stays_initialized `{Collaborators}
  (requests : list MessageBuffer) (w : World) :
  initialized_in w = true ->
  initialized_in (snd (run_session requests w)) = true.
Proof.
  intros Hw.
  assert (G : stays_initialized w (snd (run_session requests w))).
  { apply run_session_R; try solve [effect_fact]. }
  destruct G as [_ G]. now apply G.
Qed.

Lemma quiet_trans (w1 w2 w3 : World) :
  quiet_without_log_file w1 w2 -> quiet_without_log_file w2 w3 ->
  quiet_without_log_file w1 w3.
Proof.
  unfold quiet_without_log_file, same_logging.
  intros [F12 Q12] [F23 Q23]. split; [congruence|].
  intros H1. rewrite Q23 by congruence. now apply Q12.
Qed.

(** X11.  When the log file is not in use, [ev_handler] writes nothing to
    it, whatever the message, the verbose flag and the outcome. *)
Theorem ev_handler_is_quiet_without_log_file `{Collaborators}
  (mb : MessageBuffer) (w : World) :
  use_logfile (appstate w) = false ->
  logfile_stream (appstate (snd (ev_handler mb w))) =
  logfile_stream (appstate w).
Proof.
  intros Hw.
  assert (G : quiet_without_log_file w (snd (ev_handler mb w))).
  { apply ev_handler_R; try solve [effect_fact]. apply quiet_trans. }
  destruct G as [_ G]. now apply G.
Qed.

(** The same over the requests of a session. *)
Lemma session_is_quiet_without_log_file `{Collaborators}
  (requests : list MessageBuffer) (w : World) :
  use_logfile (appstate w) = false ->
  logfile_stream (appstate (snd (run_session requests w))) =
  logfile_stream (appstate w).
Proof.
  intros Hw.
  assert (G : quiet_without_log_file w (snd (run_session requests w))).
  { apply run_session_R; try solve [effect_fact]. apply quiet_trans. }
  destruct G as [_ G]. now apply G.
Qed.

(** X12.  [handle_message] writes nothing to the connection: its only
    output is the value it returns. *)
Theorem handle_message_sends_nothing `{Collaborators} (mb : MessageBuffer)
  (w : World) :
  sent (snd (handle_message mb w)) = sent w.
Proof.
  assert (G : sends_nothing w (snd (handle_message mb w))).
  { apply handle_message_R; try solve [effect_fact]. }
  now destruct G.
Qed.

Lemma log_request_sends_nothing `{Collaborators} (mb : MessageBuffer)
  (w : World) :
  sends_nothing w (snd (log_request mb (appstate w) w)).
Proof. apply log_request_R; try solve [effect_fact]. Qed.

Lemma handle_message_keeps_sent `{Collaborators} (mb : MessageBuffer)
  (w : World) :
  sends_nothing w (snd (handle_message mb w)).
Proof. apply handle_message_R; try solve [effect_fact]. Qed.

Lemma ev_handler_replies `{Collaborators} (mb : MessageBuffer) (w : World) :
  sent (snd (ev_handler mb w)) = sent w \/
  exists response,
    sent (snd (ev_handler mb w)) =
    (sent w ++ [mkHttpReply 200 (size response) "Content-Type: text/plain"
                  response])%list.
Proof.
  set (P := fun w' : World =>
              sent w' = sent w \/
              exists response,
                sent w' =
                (sent w ++ [mkHttpReply 200 (size response)
                              "Content-Type: text/plain" response])%list).
  change (P (snd (ev_handler mb w))).
  rewrite ev_handler_parts.
  destruct (message_completed mb); [|left; reflexivity].
  change (bind get_appstate ?f w) with (f (appstate w) w). cbv beta.
  pose proof (log_request_sends_nothing mb w) as [_ S1].
  unfold bind at 1.
  destruct (log_request mb (appstate w) w) as [[u|e|] w1]; cbn [snd] in *;
    try solve [left; assumption].
  pose proof (handle_message_keeps_sent mb w1) as [_ S2].
  unfold bind at 1.
  destruct (handle_message mb w1) as [[message|e|] w2]; cbn [snd] in *;
    try solve [left; congruence].
  destruct message as [response|].
  - right. exists response.
    unfold relay_response, bind, send_reply, when, print_log, ret.
    destruct (use_logfile (appstate w) && verbose (appstate w));
      cbn [snd sent]; congruence.
  - left. cbn [relay_response ret snd]. congruence.
Qed.

(** X13.  A call of [ev_handler] leaves the replies already sent as they
    are and adds at most one: a reply with status 200 whose declared length
    is the size of its content. *)
Theorem ev_handler_sends_at_most_one_reply `{Collaborators}
  (mb : MessageBuffer) (w : World) :
  sent (snd (ev_handler mb w)) = sent w \/
  exists reply,
    sent (snd (ev_handler mb w)) = (sent w ++ [reply])%list /\
    reply_status reply = 200 /\
    reply_length reply = size (reply_content reply).
Proof.
  destruct (ev_handler_replies mb w) as [E | (response & E)]; [left; exact E|].
  right. eexists. split; [exact E|]. split; reflexivity.
Qed.

(** Over the requests of a session: at most one reply per request. *)
Lemma session_sends_at_most_one_reply_per_request `{Collaborators}
  (requests : list MessageBuffer) (w : World) :
  exists replies,
    sent (snd (run_session requests w)) = (sent w ++ replies)%list /\
    (List.length replies <= List.length requests)%nat.
Proof.
  revert w. induction requests as [|mb requests IH]; intros w.
  - exists []. rewrite app_nil_r. simpl. auto.
  - cbn [run_session]. unfold bind.
    assert (G : exists first,
               sent (snd (ev_handler mb w)) = (sent w ++ first)%list /\
               (List.length first <= 1)%nat).
    { destruct (ev_handler_replies mb w) as [E | (response & E)].
      - exists []. rewrite app_nil_r. simpl. auto.
      - eexists. split; [exact E | simpl; auto]. }
    destruct G as (first & E1 & L1).
    destruct (ev_handler mb w) as [[u|e|] w1]; cbn [snd] in *.
    + destruct (IH w1) as (others & E2 & L2).
      exists (first ++ others)%list. rewrite E2, E1, app_assoc.
      split; [reflexivity|]. rewrite length_app. simpl. lia.
    + exists first. split; [exact E1 | simpl; lia].
    + exists first. split; [exact E1 | simpl; lia].
Qed.

Lemma for_each_compiles_nothing (content_lines error_lines : list string)
  (diagnostics : json) (w : World) :
  compiles_nothing w
    (snd (for_each error_lines (diagnose_line content_lines) diagnostics w)).
Proof. apply for_each_diagnose_R; try solve [effect_fact]. Qed.

(** X14.  A diagnostic pass calls the compiler exactly once, for the stage
    of the extension and on the whole text, when the extension is known, and
    not at all when it is not; this holds however the pass ends. *)
Theorem get_diagnostics_compiles_once `{Collaborators} (uri text : string)
  (w : World) :
  shader_parses (snd (get_diagnostics uri text w)) =
  (shader_parses w
     ++ match find_language uri with
        | Ok lang => [(lang, text)]
        | _ => []
        end)%list.
Proof.
  unfold get_diagnostics. unfold bind at 1, lift at 1.
  destruct (find_language uri) as [lang| |]; cbn [snd];
    try (now rewrite app_nil_r).
  unfold bind at 1, shader_parse at 1.
  set (w1 := mkWorld (appstate w) (shader_parses w ++ [(lang, text)]) (sent w)).
  assert (P0 : shader_parses w1 = (shader_parses w ++ [(lang, text)])%list)
    by reflexivity.
  change (bind get_appstate ?f w1) with (f (appstate w1) w1). cbv beta.
  assert (P : forall b t w0, shader_parses (snd (when b (print_log t) w0))
                             = shader_parses w0)
    by (intros [] t w0; reflexivity).
  unfold bind at 1.
  pose proof (P (use_logfile (appstate w1) && verbose (appstate w1))
                ("Diagnostics raw output: " ++ info_log lang text ++ NL) w1) as P1.
  destruct (when _ (print_log ("Diagnostics raw output: " ++ _ ++ NL)) w1)
    as [[u|e|] w2]; cbn [snd] in *; try congruence.
  unfold bind at 1.
  pose proof (for_each_compiles_nothing (split_string text NL)
                (split_string (info_log lang text) NL) JNull w2) as [_ P2].
  destruct (for_each _ _ JNull w2) as [[d|e|] w3]; cbn [snd] in *;
    try congruence.
  unfold bind at 1.
  pose proof (P (use_logfile (appstate w1) && verbose (appstate w1))
                ("Sending diagnostics: " ++ dump (-1) d ++ NL) w3) as P3.
  destruct (when _ (print_log _) w3) as [[u2|e|] w4]; unfold ret;
    cbn [snd] in *; congruence.
Qed.

(** ** Edges of the dispatcher and of the callback *)

(** X15.  In an initialized workspace a message whose method is missing or
    is not a string gets no error response: reading the method as a string
    for the "not supported" message throws [type_error] 302, and the state
    is left as it was. *)
Theorem missing_method_throws `{Collaborators} (mb : MessageBuffer) (w : World)
  (method : json) :
  Json.at_key (body mb) "method" = Ok method ->
  (forall s, method <> JString s) ->
  initialized_in w = true ->
  handle_message mb w = (Throw (type_error 302), w).
Proof.
  intros Em Hs Hi. apply at_key_subscript in Em. destruct Em as [body' Es].
  unfold handle_message.
  rewrite (bind_lift_ok _ _ _ _ Es).
  rewrite !eq_string_false by apply Hs.
  unfold get_appstate. cbn [bind]. unfold initialized_in in Hi. rewrite Hi.
  cbn [negb andb].
  rewrite (subscript_count _ _ _ _ Es). cbn [Z.eqb Pos.eqb].
  unfold bind, lift.
  destruct method; try reflexivity. exfalso. now apply (Hs s).
Qed.

(** X16.  With the log file in use, [ev_handler] reads the method as a
    string for its first note, before the dispatcher runs: a complete
    message whose method is missing or is not a string makes it throw
    [type_error] 302 with nothing logged and nothing sent, in any state of
    the workspace. *)
Theorem logging_needs_a_string_method `{Collaborators} (mb : MessageBuffer)
  (w : World) (method : json) :
  message_completed mb = true ->
  use_logfile (appstate w) = true ->
  Json.at_key (body mb) "method" = Ok method ->
  (forall s, method <> JString s) ->
  ev_handler mb w = (Throw (type_error 302), w).
Proof.
  intros Hc Hl Em Hs. apply at_key_subscript in Em. destruct Em as [body' Es].
  unfold ev_handler. rewrite Hc. unfold get_appstate. cbn [bind]. rewrite Hl.
  unfold bind, lift. rewrite Es.
  destruct method; try reflexivity. exfalso. now apply (Hs s).
Qed.

(** X22.  Only the two synchronisation requests reach the compiler: for a
    message with any other method, or none, [handle_message] makes no
    compiler call, however it ends. *)
Theorem only_sync_requests_compile `{Collaborators} (mb : MessageBuffer)
  (w : World) (method : json) :
  Json.at_key (body mb) "method" = Ok method ->
  method <> JString "textDocument/didOpen" ->
  method <> JString "textDocument/didChange" ->
  shader_parses (snd (handle_message mb w)) = shader_parses w.
Proof.
  intros Em Ho Hc. apply at_key_subscript in Em. destruct Em as [body' Es].
  unfold handle_message.
  rewrite (bind_lift_ok _ _ _ _ Es).
  rewrite (eq_string_false _ _ Ho), (eq_string_false _ _ Hc).
  destruct (Json.eq_string method "initialized"); [reflexivity|].
  destruct (Json.eq_string method "initialize");
    [|unfold get_appstate; cbn [bind];
      destruct (negb false
                && negb (WorkspaceOps.is_initialized (workspace (appstate w))));
      [|destruct (Json.count body' "method" =? 1)]];
    unfold bind, lift, update_workspace, ret;
    repeat match goal with
      | |- context [match ?x with Ok _ => _ | Throw _ => _ | Undefined => _ end] =>
          destruct x
      end;
    reflexivity.
Qed.

Lemma diagnose_line_stoi_throws (content_lines : list string) (diagnostics : json)
  (error_line whole severity digits message : string) (e : exn) (w : World) :
  Regex.regex_search error_line re_diagnostic = [whole; severity; digits; message] ->
  stoi digits = Throw e ->
  fst (diagnose_line content_lines diagnostics error_line w) = Throw e.
Proof.
  intros Hre Hn. unfold diagnose_line. rewrite Hre.
  cbn [List.length Nat.eqb nth]. unfold get_appstate. cbn [bind].
  unfold when.
  destruct ((severity_number severity =? -1) && use_logfile (appstate w));
    unfold print_log, ret, bind, lift; rewrite Hn; reflexivity.
Qed.

(** X17.  The pattern accepts a line whose LINE field is empty or too long
    for an [int]; on such a line [std::stoi] throws ([invalid_argument],
    [out_of_range]) and the exception ends the pass: the line is not
    skipped. *)
Theorem unreadable_line_number_throws (content_lines : list string)
  (diagnostics : json) (severity digits message : string) (e : exn) (w : World) :
  one_line severity = true ->
  all_chars is_digit digits = true ->
  one_line message = true ->
  String.index 0 ": 0:" (digits ++ ": " ++ message) = None ->
  stoi digits = Throw e ->
  fst (diagnose_line content_lines diagnostics
         (severity ++ ": 0:" ++ digits ++ ": " ++ message) w) = Throw e.
Proof.
  intros Hs Hd Hm Hi Hn.
  apply (diagnose_line_stoi_throws _ _ _ _ _ _ _ _ _
           (search_diagnostic_line severity digits message Hs Hd Hm Hi) Hn).
Qed.

(** ** The further properties at work *)

Lemma covers_in_plain_terms_witness :
  let t := FindSymbolTraverser.create 19 13 in
  let interm :=
    FindSymbolTraverser.mkSymbol (FindSymbolTraverser.mkLoc 19 10) "foo" in
  FindSymbolTraverser.covers t interm = true <->
  19 = 19 /\ 10 <= 13 <= 10 + size "foo".
Proof.
  intros t interm. apply (covers_in_plain_terms t interm).
  - simpl. lia.
  - simpl. lia.
  - reflexivity.
Defined.

Lemma well_formed_line_is_translated_witness :
  let error_line := "WARNING" ++ ": 0:" ++ "2" ++ ": " ++ "'x' : unused variable" in
  let w := initial_world false false in
  Regex.regex_search error_line re_diagnostic =
    [error_line; "WARNING"; "2"; "'x' : unused variable"] /\
  diagnose_line ["void main() {"; "  int x; }"] (diagnostics_of []) error_line w =
    (Ok (diagnostics_of
           ([] ++ [diagnostic_value (severity_number "WARNING") (2 - 1)
                     (fst (character_span (trim "'x' : unused variable" " ")
                             "  int x; }"))
                     (snd (character_span (trim "'x' : unused variable" " ")
                             "  int x; }"))
                     (trim "'x' : unused variable" " ")])),
     after_severity_note "WARNING" w).
Proof.
  intros error_line w.
  apply (well_formed_line_is_translated ["void main() {"; "  int x; }"] []
           "WARNING" "2" "'x' : unused variable" "  int x; }" 2 w);
    reflexivity.
Defined.

Lemma log_without_marker_gives_null_witness :
  let log := "Warning, version 110 is not yet complete" ++ NL
               ++ "Linked vertex stage:" ++ NL in
  fst (@get_diagnostics (Reference.fixed_log log) "shader.vert" content
         (initial_world true true)) = Ok JNull.
Proof.
  intros log.
  apply (@log_without_marker_gives_null (Reference.fixed_log log)
           "shader.vert" content EShLangVertex (initial_world true true)).
  - reflexivity.
  - vm_compute. repeat constructor.
Defined.

Lemma message_without_quote_spans_the_line_witness :
  character_span "syntax error" "void main() {}" = (0, size "void main() {}").
Proof.
  apply (message_without_quote_spans_the_line "syntax error" "void main() {}").
  - reflexivity.
  - reflexivity.
Defined.



Lemma ev_handler_stays_initialized_witness :
  let C := Reference.fixed_log "" in
  let mb := request (did_open "notes.txt" "text") in
  initialized_in (snd (@ev_handler C mb (initialized_world false false))) = true.
Proof.
  intros C mb.
  apply (@ev_handler_stays_initialized C mb (initialized_world false false)).
  reflexivity.
Defined.

Lemma ev_handler_is_quiet_without_log_file_witness :
  let C := Reference.fixed_log ("INFO: 0:1: note" ++ NL) in
  let mb := request (did_open "shader.vert" content) in
  let w := initial_world false true in
  logfile_stream (appstate (snd (@ev_handler C mb w))) =
  logfile_stream (appstate w).
Proof.
  intros C mb w.
  apply (@ev_handler_is_quiet_without_log_file C mb w). reflexivity.
Defined.

Lemma missing_method_throws_witness :
  let mb := request (Json.object [("id", JInt 1)]) in
  let w := initialized_world false false in
  @handle_message (Reference.fixed_log "") mb w = (Throw (type_error 302), w).
Proof.
  intros mb w.
  apply (@missing_method_throws (Reference.fixed_log "") mb w JNull).
  - reflexivity.
  - discriminate.
  - reflexivity.
Defined.

Lemma logging_needs_a_string_method_witness :
  let mb := request (Json.object [("id", JInt 1)]) in
  let w := initial_world true false in
  @ev_handler (Reference.fixed_log "") mb w = (Throw (type_error 302), w).
Proof.
  intros mb w.
  apply (@logging_needs_a_string_method (Reference.fixed_log "") mb w JNull).
  - reflexivity.
  - reflexivity.
  - reflexivity.
  - discriminate.
Defined.

Lemma unreadable_line_number_throws_witness :
  fst (diagnose_line ["void main() {}"] JNull
         ("ERROR" ++ ": 0:" ++ "" ++ ": " ++ "compilation terminated")
         (initial_world false false)) = Throw (invalid_argument "stoi").
Proof.
  apply (unreadable_line_number_throws ["void main() {}"] JNull "ERROR" ""
           "compilation terminated" (invalid_argument "stoi")
           (initial_world false false)); reflexivity.
Defined.

Lemma initialize_is_answered_witness :
  let C := Reference.fixed_log "" in
  let m := [("id", JInt 7); ("method", JString "initialize")] in
  let w := initial_world false false in
  @handle_message C (request (JObject m)) w =
  (Ok (Some (framed (Reference.dump 4 (initialize_content (JInt 7))))),
   snd (update_workspace (WorkspaceOps.set_initialized true) w)).
Proof.
  intros C m w.
  apply (@initialize_is_answered C (request (JObject m)) w m); reflexivity.
Defined.

Lemma unknown_method_is_reported_witness :
  let C := Reference.fixed_log "" in
  let mb := request (Json.object [("id", JInt 2); ("method", JString "foo/bar")]) in
  let w := initialized_world false false in
  @handle_message C mb w =
  (Ok (Some (framed (Reference.dump 4
                       (error_content (-32601)
                          ("Method '" ++ "foo/bar" ++ "' not supported."))))), w).
Proof.
  intros C mb w.
  apply (@unknown_method_is_reported C mb w "foo/bar").
  - reflexivity.
  - intros s Hs. simpl in Hs.
    destruct Hs as [<-|[<-|[<-|[<-|[]]]]]; discriminate.
  - reflexivity.
Defined.

Lemma character_span_not_found_witness :
  character_span "'assign' :  cannot convert" "i = 1.5;" = (-1, size "assign" - 2).
Proof.
  apply (character_span_not_found "'assign' :  cannot convert" "i = 1.5;"
           "'assign' :  cannot convert" "assign" " cannot convert");
    reflexivity.
Defined.

Lemma diagnose_line_outside_witness :
  fst (diagnose_line ["void main() {}"] JNull "ERROR: 0:0: 'x' : bad"
         (initial_world false false)) = Undefined.
Proof.
  apply (diagnose_line_outside ["void main() {}"] JNull "ERROR: 0:0: 'x' : bad"
           "ERROR: 0:0: 'x' : bad" "ERROR" "0" "'x' : bad" 0
           (initial_world false false)).
  - reflexivity.
  - reflexivity.
  - left. reflexivity.
Defined.

Lemma only_sync_requests_compile_witness :
  let C := Reference.fixed_log "" in
  let mb := request (initialize_request 1) in
  let w := initial_world false false in
  shader_parses (snd (@handle_message C mb w)) = shader_parses w.
Proof.
  intros C mb w.
  apply (@only_sync_requests_compile C mb w (JString "initialize"));
    [reflexivity | discriminate | discriminate].
Defined.
